(** * QdrantDBProvider: a shallow embedding of
      src/stores/vectordb/providers/QdrantDBProvider.py

    The provider is a thin binding over [qdrant_client].  The client is an
    external library: it is taken as a record of operations over an abstract
    engine state, and the provider's methods are written over it in a small
    state-and-exception monad that follows the Python control flow. *)

From Stdlib Require Import List String ZArith QArith Qreduction Lia Bool.
From Stdlib Require Import Permutation Sorted.
Import ListNotations.

Local Open Scope string_scope.
Local Open Scope Z_scope.

(* ================================================================== *)
(** ** Python values, exceptions and outcomes *)

(** The exceptions the provider can meet.  All of them derive from
    [Exception], so [except Exception] catches every constructor.
    [ValidationError] is the one the models of the client library raise
    for a field they refuse. *)
Inductive exn : Type :=
| AttributeError
| IndexError
| KeyError
| TypeError
| ValueError
| ValidationError
| ClientError (msg : string).

Inductive outcome (A : Type) : Type :=
| Return (a : A)
| Raise (e : exn).

Arguments Return {A} a.
Arguments Raise {A} e.

Definition obind {A B : Type} (m : outcome A) (k : A -> outcome B) : outcome B :=
  match m with
  | Return a => k a
  | Raise e => Raise e
  end.

Declare Scope outcome_scope.
Delimit Scope outcome_scope with outcome.
Notation "x <-- m ;; k" := (obind m (fun x => k))
  (at level 61, m at next level, right associativity) : outcome_scope.

(** Python floats are only carried around by the provider, never computed
    with; they are modelled as rationals. *)
Abbreviation float := Q (only parsing).

(** The values that go into a payload. *)
Inductive pyval : Type :=
| PyNone
| PyStr (s : string)
| PyInt (z : Z)
| PyDict (d : list (string * string)).

(** A Python [dict] with string keys, as an association list. *)
Definition pydict : Type := list (string * pyval).

Fixpoint dict_get (d : pydict) (k : string) : outcome pyval :=
  match d with
  | [] => Raise KeyError
  | (k', v) :: d' => if String.eqb k' k then Return v else dict_get d' k
  end.

(** [len(l)] *)
Definition len {A : Type} (l : list A) : Z := Z.of_nat (List.length l).

(** [l[x]] for a list [l]; a negative index counts from the end. *)
Definition index {A : Type} (l : list A) (x : Z) : outcome A :=
  let k := if x <? 0 then len l + x else x in
  if k <? 0 then Raise IndexError
  else match nth_error l (Z.to_nat k) with
       | Some a => Return a
       | None => Raise IndexError
       end.

(** [l[i:j]]: both bounds are normalised into [0, len(l)]. *)
Definition slice_bound {A : Type} (l : list A) (k : Z) : Z :=
  if k <? 0 then Z.max 0 (len l + k) else Z.min (len l) k.

Definition slice {A : Type} (l : list A) (i j : Z) : list A :=
  let a := slice_bound l i in
  let b := slice_bound l j in
  firstn (Z.to_nat (b - a)) (skipn (Z.to_nat a) l).

(** [range(start, stop, step)]; a zero step raises [ValueError]. *)
Definition range_count (start stop step : Z) : nat :=
  if 0 <? step then Z.to_nat ((stop - start + step - 1) / step)
  else Z.to_nat ((start - stop - step - 1) / (- step)).

Definition range3 (start stop step : Z) : outcome (list Z) :=
  if step =? 0 then Raise ValueError
  else Return (map (fun k => start + Z.of_nat k * step)
                   (seq 0 (range_count start stop step))).

(** [range(n)] *)
Definition range1 (n : Z) : list Z :=
  map Z.of_nat (seq 0 (Z.to_nat n)).

(** [[None] * n] *)
Definition none_list (n : Z) : list pyval := repeat PyNone (Z.to_nat n).

(** A list comprehension whose element expression may raise: the first
    exception aborts the whole comprehension. *)
Fixpoint comprehension {A B : Type} (f : A -> outcome B) (l : list A)
  : outcome (list B) :=
  match l with
  | [] => Return []
  | a :: l' =>
      (b <-- f a ;; bs <-- comprehension f l' ;; Return (b :: bs))%outcome
  end.

(* ================================================================== *)
(** ** The data of [qdrant_client.models] that the provider builds *)

Inductive Distance : Type := COSINE | DOT.

(** A built [models.VectorParams]: [distance] is a required field. *)
Record VectorParams : Type := mkVectorParams {
  vp_size : Z;
  vp_distance : Distance
}.

(** [models.VectorParams(size=..., distance=...)]: the constructor refuses
    [None] for the required field [distance]. *)
Definition VectorParams_new (size : Z) (distance : option Distance)
  : outcome VectorParams :=
  match distance with
  | Some d => Return (mkVectorParams size d)
  | None => Raise ValidationError
  end.

Record SparseIndexParams : Type := mkSparseIndexParams { on_disk : bool }.
Record SparseVectorParams : Type := mkSparseVectorParams {
  svp_index : SparseIndexParams
}.

(** Point ids: [range] gives integers, callers may pass strings. *)
Inductive PointId : Type :=
| IdInt (z : Z)
| IdStr (s : string).

Definition PointId_eqb (a b : PointId) : bool :=
  match a, b with
  | IdInt x, IdInt y => x =? y
  | IdStr x, IdStr y => String.eqb x y
  | _, _ => false
  end.

Inductive Fusion : Type := RRF | DBSF.

Section Models.

(** [SparseVec] is the type of a built [models.SparseVector]. *)
Context {SparseVec : Type}.

Record NamedVectors : Type := mkNamedVectors {
  nv_dense : list float;
  nv_sparse : SparseVec
}.

(** [models.Record(id=..., vector={"dense":..,"sparse":..}, payload=...)] *)
Record Record_ : Type := mkRecord {
  r_id : PointId;
  r_vector : NamedVectors;
  r_payload : pydict
}.

Inductive Query : Type :=
| QueryDense (v : list float)
| QuerySparse (sv : SparseVec)
| FusionQuery (fusion : Fusion).

(** [models.Prefetch(query=..., using=..., limit=...)] *)
Record Prefetch : Type := mkPrefetch {
  pf_query : Query;
  pf_using : string;
  pf_limit : Z
}.

End Models.

Arguments NamedVectors SparseVec : clear implicits.
Arguments Record_ SparseVec : clear implicits.
Arguments Query SparseVec : clear implicits.
Arguments Prefetch SparseVec : clear implicits.

(** A scored point of a query response; [sp_payload] is [None] or a dict. *)
Record ScoredPoint : Type := mkScoredPoint {
  sp_id : PointId;
  sp_score : float;
  sp_payload : option pydict
}.

(** What [client.query_points] hands back, as far as the provider looks at
    it: [None], an object without a [points] attribute, or a response with
    its points. *)
Inductive response : Type :=
| RespNone
| RespOpaque
| QueryResponse (points : list ScoredPoint).

(** Modelled from the spec: [RetrievedDocument] (declared in
    models/db_schemes, which is not at hand) is the (score, text) pair of a
    query result. *)
Record RetrievedDocument : Type := mkRetrievedDocument {
  score : float;
  text : pyval
}.

(* ================================================================== *)
(** ** The client interface *)

(** The operations of [QdrantClient] the provider calls.  [Engine] is the
    state of the store behind the handle.  Look-ups read the engine and may
    raise; the other operations return an outcome and the engine they
    leave behind, also when they raise. *)
Record QdrantClient (Engine SparseArg SparseVec : Type) : Type := mkClient {
  cl_open : string -> Engine;
  cl_SparseVector : SparseArg -> outcome SparseVec;
  cl_collection_exists : string -> Engine -> outcome bool;
  cl_delete_collection : string -> Engine -> outcome bool * Engine;
  cl_create_collection :
    string -> list (string * VectorParams)
    -> list (string * SparseVectorParams) -> Engine -> outcome bool * Engine;
  cl_upload_records :
    string -> list (Record_ SparseVec) -> Engine -> outcome unit * Engine;
  cl_query_points :
    string -> Query SparseVec -> list (Prefetch SparseVec) -> option string
    -> Z -> Engine -> outcome response
}.

Arguments cl_open {Engine SparseArg SparseVec} _ _.
Arguments cl_SparseVector {Engine SparseArg SparseVec} _ _.
Arguments cl_collection_exists {Engine SparseArg SparseVec} _ _ _.
Arguments cl_delete_collection {Engine SparseArg SparseVec} _ _ _.
Arguments cl_create_collection {Engine SparseArg SparseVec} _ _ _ _ _.
Arguments cl_upload_records {Engine SparseArg SparseVec} _ _ _ _.
Arguments cl_query_points {Engine SparseArg SparseVec} _ _ _ _ _ _ _.

(* ================================================================== *)
(** ** The provider *)

Section Provider.

Context {Engine SparseArg SparseVec : Type}.
Variable cl : QdrantClient Engine SparseArg SparseVec.

(** [DistanceMethodEnums.COSINE.value] and [DistanceMethodEnums.DOT.value]:
    the enumeration is declared in VectorDBEnums, which is not at hand, so
    its two values are parameters. *)
Variables COSINE_value DOT_value : string.

(** The attributes of [self].  [client] is [None] until [connect]; the
    logger is not modelled. *)
Record QdrantDBProvider : Type := mkProvider {
  client : option Engine;
  db_path : string;
  distance_method : option Distance
}.

Definition set_client (self : QdrantDBProvider) (c : option Engine)
  : QdrantDBProvider :=
  mkProvider c (db_path self) (distance_method self).

(** A method body: it reads and updates [self] and returns or raises. *)
Definition M (A : Type) : Type :=
  QdrantDBProvider -> outcome A * QdrantDBProvider.

Definition ret {A : Type} (a : A) : M A := fun self => (Return a, self).

Definition raise {A : Type} (e : exn) : M A := fun self => (Raise e, self).

Definition lift {A : Type} (o : outcome A) : M A := fun self => (o, self).

Definition bind {A B : Type} (m : M A) (k : A -> M B) : M B :=
  fun self =>
    match m self with
    | (Return a, self') => k a self'
    | (Raise e, self') => (Raise e, self')
    end.

Notation "x <- m ; k" := (bind m (fun x => k))
  (at level 61, m at next level, right associativity).

(** [try: m  except Exception as e: h e] *)
Definition try_except {A : Type} (m : M A) (h : exn -> M A) : M A :=
  fun self =>
    match m self with
    | (Return a, self') => (Return a, self')
    | (Raise e, self') => h e self'
    end.

(** [self.client.f(...)] for a look-up [f]: on a [None] client the
    attribute access raises [AttributeError]. *)
Definition client_read {A : Type} (f : Engine -> outcome A) : M A :=
  fun self =>
    match client self with
    | None => (Raise AttributeError, self)
    | Some e => (f e, self)
    end.

(** [self.client.f(...)] for an operation that changes the store. *)
Definition client_call {A : Type} (f : Engine -> outcome A * Engine) : M A :=
  fun self =>
    match client self with
    | None => (Raise AttributeError, self)
    | Some e => let (r, e') := f e in (r, set_client self (Some e'))
    end.

(** *** [__init__], [connect], [disconnect] *)

Definition init (db_path : string) (distance_method : string)
  : QdrantDBProvider :=
  let self := mkProvider None db_path None in
  if String.eqb distance_method COSINE_value
  then mkProvider (client self) (db_path) (Some COSINE)
  else if String.eqb distance_method DOT_value
       then mkProvider (client self) (db_path) (Some DOT)
       else self.

Definition connect : M unit :=
  fun self => (Return tt, set_client self (Some (cl_open cl (db_path self)))).

Definition disconnect : M unit :=
  fun self => (Return tt, set_client self None).

(** *** Collections *)

Definition is_collection_existed (collection_name : string) : M bool :=
  client_read (cl_collection_exists cl collection_name).

(** The result is [Some r] for the client's answer [r] and [None] for
    Python's implicit [None] when the [if] is not taken. *)
Definition delete_collection (collection_name : string) : M (option bool) :=
  existed <- is_collection_existed collection_name ;
  if existed
  then r <- client_call (cl_delete_collection cl collection_name) ;
       ret (Some r)
  else ret None.

(** [{"dense": models.VectorParams(size=..., distance=...)}] *)
Definition dense_config (embedding_size : Z) (d : option Distance)
  : outcome (list (string * VectorParams)) :=
  (params <-- VectorParams_new embedding_size d ;;
   Return [("dense", params)])%outcome.

Definition sparse_config : list (string * SparseVectorParams) :=
  [("sparse", mkSparseVectorParams (mkSparseIndexParams false))].

(** Lines 49-66: the call [self.client.create_collection(...)] once the
    client is at hand.  Its arguments are evaluated first, so a refused
    [VectorParams] raises before the client is asked anything. *)
Definition client_create_collection (collection_name : string)
    (embedding_size : Z) (distance : option Distance)
  : Engine -> outcome bool * Engine :=
  fun e =>
    match dense_config embedding_size distance with
    | Return vectors_config =>
        cl_create_collection cl collection_name vectors_config
                             sparse_config e
    | Raise x => (Raise x, e)
    end.

Definition create_collection (collection_name : string)
    (embedding_size : Z) (do_reset : bool) : M bool :=
  _ <- (if do_reset
        then _ <- delete_collection collection_name ; ret tt
        else ret tt) ;
  existed <- is_collection_existed collection_name ;
  if negb existed
  then fun self =>
         (_ <- client_call
                 (client_create_collection collection_name embedding_size
                                           (distance_method self)) ;
          ret true) self
  else ret false.

(** *** [insert_many] *)

Section InsertMany.

Variable collection_name : string.
Variable texts : list string.
Variable dense_vectors : list (list float).
Variable sparse_vectors : list SparseArg.
(** [metadata] and [record_ids] after their [None] defaults are filled. *)
Variable metadata : list pyval.
Variable record_ids : list PointId.
Variable batch_size : Z.

(** Lines 112-132: the records of the batch that starts at [i]. *)
Definition batch_records (i : Z) : outcome (list (Record_ SparseVec)) :=
  let batch_end := i + batch_size in
  let batch_texts := slice texts i batch_end in
  let batch_dense_vectors := slice dense_vectors i batch_end in
  let batch_sparse_vectors := slice sparse_vectors i batch_end in
  let batch_metadata := slice metadata i batch_end in
  let batch_record_ids := slice record_ids i batch_end in
  comprehension
    (fun x =>
       (id <-- index batch_record_ids x ;;
        dense <-- index batch_dense_vectors x ;;
        sparse_arg <-- index batch_sparse_vectors x ;;
        sparse <-- cl_SparseVector cl sparse_arg ;;
        t <-- index batch_texts x ;;
        m <-- index batch_metadata x ;;
        Return (mkRecord id (mkNamedVectors dense sparse)
                         [("text", PyStr t); ("metadata", m)]))%outcome)
    (range1 (len batch_texts)).

(** Lines 134-141: [true] when the upload went through, [false] when
    the handler's [return False] is taken. *)
Definition upload_batch (records : list (Record_ SparseVec)) : M bool :=
  try_except
    (_ <- client_call (cl_upload_records cl collection_name records) ;
     ret true)
    (fun _ => ret false).

(** The [for] loop over the batch starts. *)
Fixpoint insert_many_loop (starts : list Z) : M bool :=
  match starts with
  | [] => ret true
  | i :: rest =>
      records <- lift (batch_records i) ;
      uploaded <- upload_batch records ;
      if uploaded then insert_many_loop rest else ret false
  end.

Definition insert_many_body : M bool :=
  starts <- lift (range3 0 (len texts) batch_size) ;
  insert_many_loop starts.

End InsertMany.

(** Lines 105-106: [metadata = [None] * len(texts)] when it is [None]. *)
Definition metadata_or_default (texts : list string)
    (metadata : option (list pyval)) : list pyval :=
  match metadata with
  | None => none_list (len texts)
  | Some m => m
  end.

(** Lines 108-109: [record_ids = list(range(0, len(texts)))] when it is
    [None]. *)
Definition record_ids_or_default (texts : list string)
    (record_ids : option (list PointId)) : list PointId :=
  match record_ids with
  | None => map IdInt (range1 (len texts))
  | Some ids => ids
  end.

Definition insert_many (collection_name : string) (texts : list string)
    (dense_vectors : list (list float)) (sparse_vectors : list SparseArg)
    (metadata : option (list pyval)) (record_ids : option (list PointId))
    (batch_size : Z) : M bool :=
  let metadata := metadata_or_default texts metadata in
  let record_ids := record_ids_or_default texts record_ids in
  insert_many_body collection_name texts dense_vectors sparse_vectors
                   metadata record_ids batch_size.

(** *** What a run of [insert_many] leaves in the store *)

(** [uploads_ok name batches e e']: uploading [batches] one after the
    other from engine [e] succeeds every time and ends in [e']. *)
Inductive uploads_ok (collection_name : string)
  : list (list (Record_ SparseVec)) -> Engine -> Engine -> Prop :=
| uploads_nil : forall e, uploads_ok collection_name [] e e
| uploads_cons : forall b bs e e1 e2 u,
    cl_upload_records cl collection_name b e = (Return u, e1) ->
    uploads_ok collection_name bs e1 e2 ->
    uploads_ok collection_name (b :: bs) e e2.

(** The loop with the records already built. *)
Fixpoint upload_batches (collection_name : string)
    (batches : list (list (Record_ SparseVec))) : M bool :=
  match batches with
  | [] => ret true
  | b :: rest =>
      uploaded <- upload_batch collection_name b ;
      if uploaded then upload_batches collection_name rest else ret false
  end.

(** The ["text"] entry of a record's payload. *)
Definition record_text (r : Record_ SparseVec) : outcome pyval :=
  dict_get (r_payload r) "text".

(** *** Searches *)

(** [result.payload["text"]] *)
Definition payload_text (result : ScoredPoint) : outcome pyval :=
  match sp_payload result with
  | None => Raise TypeError
  | Some d => dict_get d "text"
  end.

(** The closing list comprehension of both searches. *)
Definition retrieved_documents (points : list ScoredPoint)
  : outcome (list RetrievedDocument) :=
  comprehension
    (fun result =>
       (t <-- payload_text result ;;
        Return (mkRetrievedDocument (sp_score result) t))%outcome)
    points.

Definition search_by_vector (collection_name : string) (vector : list float)
    (limit : Z) : M (option (list RetrievedDocument)) :=
  results <- client_read
               (cl_query_points cl collection_name (QueryDense vector) []
                                (Some "dense") limit) ;
  match results with
  | RespNone => ret None
  | RespOpaque => ret None
  | QueryResponse points =>
      if len points =? 0 then ret None
      else docs <- lift (retrieved_documents points) ; ret (Some docs)
  end.

Definition hybrid_prefetches (dense_vector : list float) (sparse : SparseVec)
    (dense_limit sparse_limit : Z) : list (Prefetch SparseVec) :=
  [ mkPrefetch (QueryDense dense_vector) "dense" dense_limit;
    mkPrefetch (QuerySparse sparse) "sparse" sparse_limit ].

Definition search_hybrid (collection_name : string)
    (dense_vector : list float) (sparse_vector : SparseArg)
    (dense_limit sparse_limit limit : Z)
  : M (option (list RetrievedDocument)) :=
  sparse <- lift (cl_SparseVector cl sparse_vector) ;
  let prefetches :=
    hybrid_prefetches dense_vector sparse dense_limit sparse_limit in
  results <- client_read
               (cl_query_points cl collection_name (FusionQuery RRF)
                                prefetches None limit) ;
  match results with
  | RespNone => ret None
  | RespOpaque => raise AttributeError
  | QueryResponse points =>
      if len points =? 0 then ret None
      else docs <- lift (retrieved_documents points) ; ret (Some docs)
  end.

End Provider.

Arguments QdrantDBProvider Engine : clear implicits.
Arguments M Engine A : clear implicits.

(* ================================================================== *)
(** ** What a stored payload says *)

(** The dict [d] holds [v] under the key [k]: [(k, v)] is its first entry
    with that key. *)
Definition holds_entry (d : pydict) (k : string) (v : pyval) : Prop :=
  exists before after,
    d = (before ++ (k, v) :: after)%list /\ ~ In k (map fst before).

(** The point [p] carries a payload whose ["text"] entry is [t]. *)
Definition stored_text (p : ScoredPoint) (t : pyval) : Prop :=
  exists d, sp_payload p = Some d /\ holds_entry d "text" t.

(** The documents of [points] with the texts [texts], in order. *)
Definition documents (points : list ScoredPoint) (texts : list pyval)
  : list RetrievedDocument :=
  map (fun pt => mkRetrievedDocument (sp_score (fst pt)) (snd pt))
      (combine points texts).

(* ================================================================== *)
(** ** Reciprocal Rank Fusion *)

(** The fusion itself runs inside the engine behind [client.query_points];
    the provider only asks for [models.Fusion.RRF] and names no constant.
    The engine's code is not at hand, so its fusion step is modelled from
    the specification (section 4.5, steps 2 and 3), with the constant of
    the fusion left to the engine. *)
Module RRFusion.

Local Open Scope Q_scope.

(** Modelled from the spec: the value the specification gives to the
    constant of the fusion. *)
Definition spec_k : Z := 60.

Section Constant.

(** The constant of the fusion; it is the engine's. *)
Variable k : Z.

(** Modelled from the spec: [1/(k + rank)] for a 1-based [rank]. *)
Definition rrf_weight (rank : Z) : Q := 1 # Z.to_pos (k + rank).

(** Modelled from the spec: the engine's running score table.  A point
    met for the first time enters the table with weight [w]; a point
    already there gets [w] added to its score. *)
Fixpoint rrf_bump (p : ScoredPoint) (w : Q) (acc : list ScoredPoint)
  : list ScoredPoint :=
  match acc with
  | [] => [mkScoredPoint (sp_id p) w (sp_payload p)]
  | q :: acc' =>
      if PointId_eqb (sp_id q) (sp_id p)
      then mkScoredPoint (sp_id q) (sp_score q + w) (sp_payload q) :: acc'
      else q :: rrf_bump p w acc'
  end.


(** Modelled from the spec: one ranked list is walked best first, the
    point at 1-based rank [rank] adding [1/(k + rank)]. *)
Fixpoint rrf_add_list (rank : Z) (l : list ScoredPoint)
    (acc : list ScoredPoint) : list ScoredPoint :=
  match l with
  | [] => acc
  | p :: l' => rrf_add_list (rank + 1) l' (rrf_bump p (rrf_weight rank) acc)
  end.

Definition rrf_accumulate (lists : list (list ScoredPoint))
  : list ScoredPoint :=
  fold_left (fun acc l => rrf_add_list 1 l acc) lists [].

(** Modelled from the spec: sorting by score, best first.  Points of
    equal score keep the order in which they entered the table. *)
Fixpoint insert_desc (p : ScoredPoint) (l : list ScoredPoint)
  : list ScoredPoint :=
  match l with
  | [] => [p]
  | q :: l' =>
      if Qle_bool (sp_score q) (sp_score p)
      then p :: q :: l'
      else q :: insert_desc p l'
  end.

Definition sort_desc (l : list ScoredPoint) : list ScoredPoint :=
  fold_right insert_desc [] l.

(** Modelled from the spec: fuse, sort by score descending, truncate to
    [limit]. *)
Definition rrf_fusion (lists : list (list ScoredPoint)) (limit : Z)
  : list ScoredPoint :=
  firstn (Z.to_nat limit) (sort_desc (rrf_accumulate lists)).

(** *** The reference, in the words of the specification *)

(** The 1-based rank of the record [i] in a ranked list. *)
Fixpoint rank_from (rank : Z) (i : PointId) (l : list ScoredPoint)
  : option Z :=
  match l with
  | [] => None
  | p :: l' =>
      if PointId_eqb (sp_id p) i then Some rank
      else rank_from (rank + 1) i l'
  end.




Definition ids (l : list ScoredPoint) : list PointId := map sp_id l.



End Constant.

End RRFusion.

(* ================================================================== *)
(** ** An in-memory client *)

(** A small client that keeps everything in a record.  It stands in for
    [QdrantClient] wherever the provider is run on concrete inputs. *)
Module InMemory.

Record SparseVector : Type := mkSparseVector {
  indices : list Z;
  values : list float
}.

(** The dict unpacked into [SparseVector]: [Some] for a dict with the two
    fields, [None] for a dict the constructor rejects. *)
Definition SparseArg : Type := option SparseVector.

Definition make_sparse (d : SparseArg) : outcome SparseVector :=
  match d with
  | Some v => Return v
  | None => Raise TypeError
  end.

Record store : Type := mkStore {
  collections : list (string * Z);
  points : list (string * Record_ SparseVector);
  dense_ranking : list ScoredPoint;
  sparse_ranking : list ScoredPoint
}.

Definition empty : store := mkStore [] [] [] [].

Fixpoint dimension (name : string) (cs : list (string * Z)) : option Z :=
  match cs with
  | [] => None
  | (n, d) :: cs' => if String.eqb n name then Some d else dimension name cs'
  end.

Definition collection_exists (name : string) (st : store) : outcome bool :=
  Return (match dimension name (collections st) with
          | Some _ => true
          | None => false
          end).

Definition delete (name : string) (st : store) : outcome bool * store :=
  (Return true,
   mkStore (filter (fun c => negb (String.eqb (fst c) name)) (collections st))
           (filter (fun r => negb (String.eqb (fst r) name)) (points st))
           (dense_ranking st) (sparse_ranking st)).

Definition create (name : string) (vectors : list (string * VectorParams))
    (sparse : list (string * SparseVectorParams)) (st : store)
  : outcome bool * store :=
  match dimension name (collections st), vectors with
  | None, (_, params) :: _ =>
      (Return true,
       mkStore ((name, vp_size params) :: collections st) (points st)
               (dense_ranking st) (sparse_ranking st))
  | _, _ => (Raise (ClientError "cannot create collection"), st)
  end.

(** An upload is refused when the collection is missing or a dense
    vector has the wrong length; nothing is written then. *)
Definition upload (name : string) (records : list (Record_ SparseVector))
    (st : store) : outcome unit * store :=
  match dimension name (collections st) with
  | None => (Raise (ClientError "collection not found"), st)
  | Some d =>
      if forallb (fun r => len (nv_dense (r_vector r)) =? d) records
      then (Return tt,
            mkStore (collections st)
                    (points st ++ map (pair name) records)
                    (dense_ranking st) (sparse_ranking st))
      else (Raise (ClientError "dimension mismatch"), st)
  end.

(** The ranked list a sub-search finds, cut to the prefetch limit. *)
Definition run_prefetch (st : store) (p : Prefetch SparseVector)
  : list ScoredPoint :=
  firstn (Z.to_nat (pf_limit p))
         (if String.eqb (pf_using p) "dense"
          then dense_ranking st else sparse_ranking st).

(** The answer to a query, for an engine whose fusion constant is [k]. *)
Definition query_with (k : Z) (name : string) (q : Query SparseVector)
    (prefetch : list (Prefetch SparseVector)) (using_ : option string)
    (limit : Z) (st : store) : outcome response :=
  match q, prefetch with
  | QueryDense _, [] =>
      Return (QueryResponse (firstn (Z.to_nat limit) (dense_ranking st)))
  | FusionQuery RRF, _ =>
      Return (QueryResponse
                (RRFusion.rrf_fusion k (map (run_prefetch st) prefetch)
                                     limit))
  | _, _ => Raise (ClientError "unsupported query")
  end.

Definition client_with (k : Z) : QdrantClient store SparseArg SparseVector :=
  mkClient store SparseArg SparseVector
           (fun _ => empty) make_sparse collection_exists delete create
           upload (query_with k).

(** The client whose engine fuses with the constant of the specification. *)
Definition local_client : QdrantClient store SparseArg SparseVector :=
  client_with RRFusion.spec_k.


End InMemory.

(* ================================================================== *)
(** ** Concrete runs *)

(** Inputs on which the provider is run over the in-memory client. *)
Module Scenario.

Import InMemory.

Definition sv : SparseArg := Some (mkSparseVector [1; 5] [1 # 2; 1 # 4]).

Definition payload_of (t : string) : pydict :=
  [("text", PyStr t); ("metadata", PyNone)].

(** A connected provider whose store is still empty. *)
Definition fresh : QdrantDBProvider store :=
  mkProvider (Some empty) "db" (Some COSINE).

(** The store with one collection ["docs"] of dimension 2. *)
Definition docs_store : store := mkStore [("docs", 2)] [] [] [].

Definition with_docs : QdrantDBProvider store :=
  mkProvider (Some docs_store) "db" (Some COSINE).

(** Four records in batches of two; the last dense vector has the wrong
    length, so the second upload is refused. *)
Definition texts4 : list string := ["t0"; "t1"; "t2"; "t3"].

Definition dense4 : list (list float) :=
  [[1 # 1; 0 # 1]; [0 # 1; 1 # 1]; [1 # 1; 1 # 1]; [1 # 1]].

Definition sparse4 : list SparseArg := [sv; sv; sv; sv].

Definition record (k : Z) (t : string) (d : list float)
  : Record_ SparseVector :=
  mkRecord (IdInt k)
           (mkNamedVectors d (mkSparseVector [1; 5] [1 # 2; 1 # 4]))
           (payload_of t).

Definition batch0 : list (Record_ SparseVector) :=
  [record 0 "t0" [1 # 1; 0 # 1]; record 1 "t1" [0 # 1; 1 # 1]].

Definition batch1 : list (Record_ SparseVector) :=
  [record 2 "t2" [1 # 1; 1 # 1]; record 3 "t3" [1 # 1]].

Definition after_batch0 : store :=
  mkStore [("docs", 2)] (map (pair "docs") batch0) [] [].

(** Three well-formed records. *)
Definition texts3 : list string := ["t0"; "t1"; "t2"].

Definition dense3 : list (list float) :=
  [[1 # 1; 0 # 1]; [0 # 1; 1 # 1]; [1 # 1; 1 # 1]].

Definition sparse3 : list SparseArg := [sv; sv; sv].

Definition batches3 : list (list (Record_ SparseVector)) :=
  [ batch0; [record 2 "t2" [1 # 1; 1 # 1]] ].

(** Two texts but a single dense vector. *)
Definition texts2 : list string := ["t0"; "t1"].

Definition dense1 : list (list float) := [[1 # 1; 0 # 1]].

Definition sparse2 : list SparseArg := [sv; sv].

Definition after_record0 : store :=
  mkStore [("docs", 2)] [("docs", record 0 "t0" [1 # 1; 0 # 1])] [] [].

(** The ranked lists of the worked example: dense [A,B,C], sparse
    [B,D,A]. *)
Definition pA : ScoredPoint :=
  mkScoredPoint (IdInt 1) (9 # 10) (Some (payload_of "A")).
Definition pB : ScoredPoint :=
  mkScoredPoint (IdInt 2) (8 # 10) (Some (payload_of "B")).
Definition pC : ScoredPoint :=
  mkScoredPoint (IdInt 3) (7 # 10) (Some (payload_of "C")).
Definition qB : ScoredPoint :=
  mkScoredPoint (IdInt 2) (5 # 1) (Some (payload_of "B")).
Definition qD : ScoredPoint :=
  mkScoredPoint (IdInt 4) (4 # 1) (Some (payload_of "D")).
Definition qA : ScoredPoint :=
  mkScoredPoint (IdInt 1) (3 # 1) (Some (payload_of "A")).

Definition ranked_store : store :=
  mkStore [("docs", 2)] [] [pA; pB; pC] [qB; qD; qA].

Definition with_rankings : QdrantDBProvider store :=
  mkProvider (Some ranked_store) "db" (Some COSINE).

Definition query_vector : list float := [1 # 1; 0 # 1].


End Scenario.

(* ================================================================== *)
(** ** The remaining methods *)

Section ProviderRest.

Context {Engine SparseArg SparseVec : Type}.
Variable cl : QdrantClient Engine SparseArg SparseVec.

(** [models.Record(id=[record_id], vector=vector, payload=...)] as
    [insert_one] calls it: the id is a one-element list and the vector is
    not named.  The constructor belongs to the client library; it hands
    back a record or raises. *)
Variable models_Record :
  list (option PointId) -> list float -> pydict -> outcome (Record_ SparseVec).

Notation "x <- m ; k" := (bind m (fun x => k))
  (at level 61, m at next level, right associativity).

(** Lines 73-98.  The existence check is outside the [try]; the attribute
    access [self.client.upload_records], the construction of the record
    and the call are inside it, in this order.  [metadata] is [PyNone] and
    [record_id] is [None] when the caller omits them. *)
Definition insert_one (collection_name : string) (text : string)
    (vector : list float) (metadata : pyval) (record_id : option PointId)
  : M Engine bool :=
  existed <- is_collection_existed cl collection_name ;
  if negb existed then ret false
  else
    try_except
      (_ <- client_call
              (fun e =>
                 match models_Record [record_id] vector
                         [("text", PyStr text); ("metadata", metadata)] with
                 | Return record =>
                     cl_upload_records cl collection_name [record] e
                 | Raise x => (Raise x, e)
                 end) ;
       ret true)
      (fun _ => ret false).

(** [m] leaves the configuration of the provider alone: the path and the
    distance chosen by [__init__]. *)
Definition keeps_config {A : Type} (m : M Engine A) : Prop :=
  forall self : QdrantDBProvider Engine,
    db_path (snd (m self)) = db_path self
    /\ distance_method (snd (m self)) = distance_method self.

End ProviderRest.

Section Listing.

(** [get_collections] and [get_collection] of the client, with the types
    of their answers. *)
Context {Engine Collections CollectionInfo : Type}.
Variable cl_get_collections : Engine -> outcome Collections.
Variable cl_get_collection : string -> Engine -> outcome CollectionInfo.

Definition list_all_collections : M Engine Collections :=
  client_read cl_get_collections.

Definition get_collection_info (collection_name : string)
  : M Engine CollectionInfo :=
  client_read (cl_get_collection collection_name).

End Listing.

(** The in-memory client's side of the remaining methods. *)
Module InMemoryRest.

Import InMemory.

(** A record is built from a one-element id list; its sparse vector is
    empty.  Any other id list is refused. *)
Definition single_record (ids : list (option PointId)) (vector : list float)
    (payload : pydict) : outcome (Record_ SparseVector) :=
  match ids with
  | [Some i] =>
      Return (mkRecord i (mkNamedVectors vector (mkSparseVector [] []))
                       payload)
  | _ => Raise TypeError
  end.

Definition get_collections (st : store) : outcome (list string) :=
  Return (map fst (collections st)).

Definition get_collection (name : string) (st : store) : outcome Z :=
  match dimension name (collections st) with
  | Some d => Return d
  | None => Raise (ClientError "collection not found")
  end.

End InMemoryRest.

(** More inputs for the in-memory client. *)
Module ScenarioRest.

Import InMemory Scenario.

(** A provider that was never connected. *)
Definition unconnected : QdrantDBProvider store :=
  mkProvider None "db" (Some COSINE).

(** The third sparse argument is one that [SparseVector] refuses. *)
Definition sparse3_bad : list SparseArg := [sv; sv; None].

(** Inputs that run past the three texts. *)
Definition dense5 : list (list float) :=
  dense3 ++ [[5 # 1; 5 # 1]; [6 # 1; 6 # 1]].
Definition sparse5 : list SparseArg := sparse3 ++ [None; sv].
Definition metadata5 : list pyval :=
  [PyNone; PyNone; PyNone; PyStr "extra"; PyStr "extra"].
Definition ids5 : list PointId :=
  [IdInt 0; IdInt 1; IdInt 2; IdStr "extra"; IdStr "more"].

Definition single (t : string) (i : PointId) (d : list float)
  : Record_ SparseVector :=
  mkRecord i (mkNamedVectors d (mkSparseVector [] []))
           [("text", PyStr t); ("metadata", PyNone)].

Definition after_single : store :=
  mkStore [("docs", 2)]
          [("docs", single "t0" (IdInt 7) [1 # 1; 0 # 1])] [] [].

Definition after_batches3 : store :=
  mkStore [("docs", 2)] (map (pair "docs") (List.concat batches3)) [] [].








End ScenarioRest.

(* ================================================================== *)
(** ** Python lists, slices and ranges *)

Section PythonLists.

Context {A : Type}.

Lemma len_nonneg : forall l : list A, 0 <= len l.
Proof. intros l. unfold len. lia. Qed.

(** Indexing at a non-negative position is [nth_error]. *)
Lemma index_of_nat :
  forall (l : list A) (k : nat),
    index l (Z.of_nat k) =
    match nth_error l k with
    | Some a => Return a
    | None => Raise IndexError
    end.
Proof.
  intros l k. unfold index.
  assert (H : (Z.of_nat k <? 0) = false) by (apply Z.ltb_ge; lia).
  rewrite H, H, Nat2Z.id. reflexivity.
Qed.

Lemma index_out_of_range :
  forall (l : list A) (x : Z),
    0 <= x -> len l <= x -> index l x = Raise IndexError.
Proof.
  intros l x Hx Hlen.
  rewrite <- (Z2Nat.id x Hx), index_of_nat.
  destruct (nth_error l (Z.to_nat x)) eqn:E; [|reflexivity].
  assert (Hlt : (Z.to_nat x < List.length l)%nat).
  { apply nth_error_Some. rewrite E. discriminate. }
  unfold len in Hlen. lia.
Qed.

(** A slice between non-negative bounds. *)
Lemma slice_nonneg :
  forall (l : list A) (i j : Z),
    0 <= i -> i <= j ->
    slice l i j = firstn (Z.to_nat (j - i)) (skipn (Z.to_nat i) l).
Proof.
  intros l i j Hi Hij. unfold slice, slice_bound.
  assert (Hi' : (i <? 0) = false) by (apply Z.ltb_ge; lia).
  assert (Hj' : (j <? 0) = false) by (apply Z.ltb_ge; lia).
  rewrite Hi', Hj'. unfold len.
  destruct (Z_le_gt_dec i (Z.of_nat (List.length l))) as [Hin|Hout].
  - rewrite (Z.min_r _ i) by lia.
    destruct (Z_le_gt_dec j (Z.of_nat (List.length l))) as [Hjn|Hjout].
    + rewrite (Z.min_r _ j) by lia. reflexivity.
    + rewrite (Z.min_l _ j) by lia.
      rewrite !firstn_all2; try reflexivity; rewrite length_skipn; lia.
  - rewrite !Z.min_l by lia. rewrite Z.sub_diag. simpl.
    rewrite (skipn_all2 l) by lia. now rewrite firstn_nil.
Qed.

Lemma slice_length :
  forall (l : list A) (i step : Z),
    0 <= i -> 0 < step ->
    len (slice l i (i + step)) = Z.max 0 (Z.min step (len l - i)).
Proof.
  intros l i step Hi Hs. rewrite slice_nonneg by lia. unfold len.
  rewrite length_firstn, length_skipn. lia.
Qed.

(** Position [x] of the slice that starts at [i] is position [i + x] of
    the list. *)
Lemma slice_nth_error :
  forall (l : list A) (i step : Z) (x : nat) (a : A),
    0 <= i -> 0 < step ->
    nth_error (slice l i (i + step)) x = Some a ->
    nth_error l (Z.to_nat i + x) = Some a.
Proof.
  intros l i step x a Hi Hs H. rewrite slice_nonneg in H by lia.
  assert (Hx : (x < Z.to_nat (i + step - i))%nat).
  { destruct (Nat.lt_ge_cases x (Z.to_nat (i + step - i))) as [Hlt|Hge];
      [exact Hlt|].
    assert (Hnone : nth_error (firstn (Z.to_nat (i + step - i))
                                      (skipn (Z.to_nat i) l)) x = None).
    { apply nth_error_None. rewrite length_firstn. lia. }
    rewrite Hnone in H. discriminate. }
  rewrite nth_error_firstn in H.
  apply Nat.ltb_lt in Hx. rewrite Hx in H.
  rewrite nth_error_skipn in H. exact H.
Qed.

(** Cutting a list into consecutive pieces of [b] elements and gluing
    them back gives the list. *)
Lemma chunks_concat :
  forall (l : list A) (b c a : nat),
    (List.length l <= (a + c) * b)%nat ->
    List.concat (map (fun k => firstn b (skipn (k * b) l)) (seq a c))
    = skipn (a * b) l.
Proof.
  intros l b c. induction c as [|c IH]; intros a Hlen.
  - simpl. rewrite skipn_all2; [reflexivity|lia].
  - simpl. rewrite IH by lia.
    replace (S a * b)%nat with (b + a * b)%nat by lia.
    rewrite <- skipn_skipn. apply firstn_skipn.
Qed.


End PythonLists.

Lemma range1_length : forall n : Z, List.length (range1 n) = Z.to_nat n.
Proof. intros n. unfold range1. now rewrite length_map, length_seq. Qed.

Lemma range1_In :
  forall n x : Z, In x (range1 n) <-> 0 <= x < n.
Proof.
  intros n x. unfold range1. rewrite in_map_iff. split.
  - intros [k [Hk Hin]]. apply in_seq in Hin. lia.
  - intros Hx. exists (Z.to_nat x). split; [lia|]. apply in_seq. lia.
Qed.

(** The batch starts of [insert_many]: [range(0, n, step)] for a positive
    step is [0, step, 2*step, ...], one start per piece of [step]. *)
Lemma range3_positive_step :
  forall n step : Z,
    0 <= n -> 0 < step ->
    range3 0 n step
    = Return (map (fun k => Z.of_nat k * step)
                  (seq 0 (Z.to_nat ((n + step - 1) / step)))).
Proof.
  intros n step Hn Hs. unfold range3, range_count.
  assert (H0 : (step =? 0) = false) by (apply Z.eqb_neq; lia).
  assert (H1 : (0 <? step) = true) by (apply Z.ltb_lt; lia).
  rewrite H0, H1. rewrite Z.sub_0_r. reflexivity.
Qed.

Lemma range3_empty :
  forall step : Z, step <> 0 -> range3 0 0 step = Return [].
Proof.
  intros step Hs. unfold range3, range_count.
  apply Z.eqb_neq in Hs. rewrite Hs. apply Z.eqb_neq in Hs.
  destruct (0 <? step) eqn:E.
  - apply Z.ltb_lt in E. rewrite Z.div_small by lia. reflexivity.
  - apply Z.ltb_ge in E. rewrite Z.div_small by lia. reflexivity.
Qed.

(** The number of batches covers the whole list. *)
Lemma batch_count_covers :
  forall n step : Z,
    0 <= n -> 0 < step -> n <= ((n + step - 1) / step) * step.
Proof.
  intros n step Hn Hs.
  pose proof (Z.div_mod (n + step - 1) step ltac:(lia)) as Hdm.
  pose proof (Z.mod_pos_bound (n + step - 1) step Hs) as Hb.
  nia.
Qed.

Section Comprehensions.

Context {A B : Type}.
Variable f : A -> outcome B.

Lemma comprehension_Forall2 :
  forall (l : list A) (bs : list B),
    comprehension f l = Return bs ->
    Forall2 (fun a b => f a = Return b) l bs.
Proof.
  induction l as [|a l IH]; intros bs H; simpl in H.
  - inversion H. constructor.
  - destruct (f a) as [b|e] eqn:Ea; [|discriminate]. simpl in H.
    destruct (comprehension f l) as [bs'|e]; [|discriminate].
    inversion H; subst. constructor; [exact Ea|]. now apply IH.
Qed.

Lemma comprehension_raises :
  forall (l : list A) (a : A),
    In a l ->
    (exists e, f a = Raise e) ->
    exists e, comprehension f l = Raise e.
Proof.
  induction l as [|a' l IH]; intros a Hin Hraise; [contradiction|].
  simpl. destruct (f a') as [b|e] eqn:Ea; [|now exists e]. simpl.
  destruct Hin as [->|Hin].
  - destruct Hraise as [e He]. congruence.
  - destruct (IH a Hin Hraise) as [e He]. rewrite He. now exists e.
Qed.

Lemma comprehension_cons_inv :
  forall (a : A) (l : list A) (bs : list B),
    comprehension f (a :: l) = Return bs ->
    exists b bs',
      bs = b :: bs' /\ f a = Return b /\ comprehension f l = Return bs'.
Proof.
  intros a l bs H. simpl in H.
  destruct (f a) as [b|e]; [|discriminate]. simpl in H.
  destruct (comprehension f l) as [bs'|e]; [|discriminate].
  inversion H. now exists b, bs'.
Qed.

Lemma comprehension_nil_inv :
  forall l : list A, comprehension f l = Return [] -> l = [].
Proof.
  intros [|a l] H; [reflexivity|].
  apply comprehension_cons_inv in H.
  destruct H as [b [bs' [Hbs _]]]. discriminate.
Qed.

End Comprehensions.

(* ================================================================== *)
(** ** Collections and searches *)

Section CollectionFacts.

Context {Engine SparseArg SparseVec : Type}.
Variable cl : QdrantClient Engine SparseArg SparseVec.

Lemma is_collection_existed_connected :
  forall (name : string) (self : QdrantDBProvider Engine) (e : Engine),
    client self = Some e ->
    is_collection_existed cl name self = (cl_collection_exists cl name e, self).
Proof.
  intros name self e Hc.
  unfold is_collection_existed, client_read. now rewrite Hc.
Qed.

Lemma set_client_same :
  forall (self : QdrantDBProvider Engine) (e : Engine),
    client self = Some e -> set_client self (Some e) = self.
Proof.
  intros [c p d] e Hc. simpl in Hc. subst c. reflexivity.
Qed.

Lemma set_client_twice :
  forall (self : QdrantDBProvider Engine) (c1 c2 : option Engine),
    set_client (set_client self c1) c2 = set_client self c2.
Proof. reflexivity. Qed.

Lemma delete_collection_connected :
  forall (name : string) (self : QdrantDBProvider Engine) (e : Engine)
         (existed : bool),
    client self = Some e ->
    cl_collection_exists cl name e = Return existed ->
    delete_collection cl name self =
      if existed
      then (obind (fst (cl_delete_collection cl name e))
                  (fun r => Return (Some r)),
            set_client self (Some (snd (cl_delete_collection cl name e))))
      else (Return None, self).
Proof.
  intros name self e existed Hc Hex.
  unfold delete_collection, bind.
  rewrite (is_collection_existed_connected name self e Hc), Hex.
  destruct existed; [|reflexivity].
  unfold client_call. rewrite Hc.
  destruct (cl_delete_collection cl name e) as [[r|x] e']; reflexivity.
Qed.

(** C7.  On a connected provider, [delete_collection] of a collection the
    client reports absent calls nothing else, leaves the provider as it
    was and returns Python's [None] without raising; for a collection the
    client reports present, its outcome and the engine it leaves are
    those of the client's [delete_collection]. *)
Theorem delete_collection_absent_noop :
  forall (name : string) (self : QdrantDBProvider Engine) (e : Engine),
    client self = Some e ->
    (cl_collection_exists cl name e = Return false ->
     delete_collection cl name self = (Return None, self))
    /\ (cl_collection_exists cl name e = Return true ->
        forall (r : outcome bool) (e' : Engine),
          cl_delete_collection cl name e = (r, e') ->
          delete_collection cl name self
          = (obind r (fun b => Return (Some b)), set_client self (Some e'))).
Proof.
  intros name self e Hc. split.
  - intros Hex. exact (delete_collection_connected name self e false Hc Hex).
  - intros Hex r e' Hdel.
    rewrite (delete_collection_connected name self e true Hc Hex), Hdel.
    reflexivity.
Qed.

(** C3.  Starting from a collection the client reports absent, and with
    the creation (the [VectorParams] the provider builds and the client's
    [create_collection]) returning:
    [create_collection] with [do_reset=False] returns [True]; a second
    such call returns [False] and leaves the provider and its engine
    untouched; a second call with [do_reset=True] instead goes through
    the client's [delete_collection] first, creates the collection again
    and returns [True]. *)
Theorem create_collection_twice :
  forall (name : string) (size size' : Z) (self : QdrantDBProvider Engine)
         (e0 e1 : Engine) (r1 : bool),
    client self = Some e0 ->
    cl_collection_exists cl name e0 = Return false ->
    client_create_collection cl name size (distance_method self) e0
    = (Return r1, e1) ->
    cl_collection_exists cl name e1 = Return true ->
    let self1 := set_client self (Some e1) in
    create_collection cl name size false self = (Return true, self1)
    /\ create_collection cl name size' false self1 = (Return false, self1)
    /\ (forall (e2 e3 : Engine) (r2 r3 : bool),
           cl_delete_collection cl name e1 = (Return r2, e2) ->
           cl_collection_exists cl name e2 = Return false ->
           client_create_collection cl name size' (distance_method self) e2
           = (Return r3, e3) ->
           create_collection cl name size' true self1
           = (Return true, set_client self (Some e3))).
Proof.
  intros name size size' self e0 e1 r1 Hc Habs Hcreate Hex self1.
  assert (Hc1 : client self1 = Some e1) by reflexivity.
  repeat split.
  - unfold create_collection, bind, ret.
    rewrite (is_collection_existed_connected name self e0 Hc), Habs. simpl.
    unfold client_call. rewrite Hc, Hcreate. reflexivity.
  - unfold create_collection, bind, ret.
    rewrite (is_collection_existed_connected name self1 e1 Hc1), Hex.
    reflexivity.
  - intros e2 e3 r2 r3 Hdel Habs2 Hcreate2.
    unfold create_collection, bind, ret.
    rewrite (delete_collection_connected name self1 e1 true Hc1 Hex).
    rewrite Hdel. simpl. rewrite Habs2. simpl.
    unfold client_call. simpl. rewrite Hcreate2. reflexivity.
Qed.

End CollectionFacts.

Section SearchFacts.

Context {Engine SparseArg SparseVec : Type}.
Variable cl : QdrantClient Engine SparseArg SparseVec.

Lemma len_zero_nil :
  forall (A : Type) (l : list A), (len l =? 0) = true <-> l = [].
Proof.
  intros A [|a l]; unfold len; simpl; split; intros H;
    try reflexivity; discriminate.
Qed.

Lemma len_nonzero :
  forall (A : Type) (l : list A), l <> [] -> (len l =? 0) = false.
Proof.
  intros A l Hne. destruct (len l =? 0) eqn:E; [|reflexivity].
  apply len_zero_nil in E. contradiction.
Qed.

Lemma dict_get_holds :
  forall (d : pydict) (k : string) (v : pyval),
    holds_entry d k v -> dict_get d k = Return v.
Proof.
  intros d k v [before [after [-> Hnot]]].
  induction before as [|[k' v'] before IH]; simpl.
  - now rewrite String.eqb_refl.
  - simpl in Hnot.
    assert (Hne : String.eqb k' k = false).
    { apply String.eqb_neq. intros Heq. apply Hnot. now left. }
    rewrite Hne. apply IH. intros Hin. apply Hnot. now right.
Qed.

(** [result.payload["text"]] finds the text the payload stores. *)
Lemma payload_text_stored :
  forall (p : ScoredPoint) (t : pyval),
    stored_text p t -> payload_text p = Return t.
Proof.
  intros p t [d [Hd Hentry]]. unfold payload_text. rewrite Hd.
  now apply dict_get_holds.
Qed.

(** When every point stores a text, the closing comprehension yields one
    document per point, in the same order, with the point's score and its
    stored text. *)
Lemma retrieved_documents_stored :
  forall (points : list ScoredPoint) (texts : list pyval),
    Forall2 stored_text points texts ->
    retrieved_documents points = Return (documents points texts).
Proof.
  intros points texts H. unfold retrieved_documents, documents.
  induction H as [|p t points texts Hpt Hrest IH]; [reflexivity|].
  simpl. rewrite (payload_text_stored p t Hpt). simpl. now rewrite IH.
Qed.

Lemma documents_length :
  forall (points : list ScoredPoint) (texts : list pyval),
    Forall2 stored_text points texts ->
    List.length (documents points texts) = List.length points.
Proof.
  intros points texts H. unfold documents.
  rewrite length_map, length_combine, <- (Forall2_length H). lia.
Qed.

(** C5.  When the client answers the dense query with a response of zero
    points, [search_by_vector] returns [None]: it neither raises nor
    returns an empty list.  When the response has points, each storing a
    text in its payload, it returns the non-empty list that has, for each
    point and in the same order, the document made of the point's score
    and of the text stored under ["text"] in the point's payload. *)
Theorem search_by_vector_none_or_documents :
  forall (name : string) (vector : list float) (limit : Z)
         (self : QdrantDBProvider Engine) (e : Engine)
         (points : list ScoredPoint),
    client self = Some e ->
    cl_query_points cl name (QueryDense vector) [] (Some "dense") limit e
    = Return (QueryResponse points) ->
    (points = [] ->
     search_by_vector cl name vector limit self = (Return None, self))
    /\ (points <> [] ->
        forall texts : list pyval,
          Forall2 stored_text points texts ->
          search_by_vector cl name vector limit self
          = (Return (Some (documents points texts)), self)
          /\ documents points texts <> []
          /\ List.length (documents points texts) = List.length points).
Proof.
  intros name vector limit self e points Hc Hq.
  unfold search_by_vector, bind, client_read. rewrite Hc, Hq. split.
  - intros ->. reflexivity.
  - intros Hne texts Htexts. rewrite (len_nonzero _ points Hne).
    unfold lift, ret. rewrite (retrieved_documents_stored _ _ Htexts).
    split; [reflexivity|].
    pose proof (documents_length _ _ Htexts) as Hlen.
    split; [|exact Hlen].
    intros Hnil. rewrite Hnil in Hlen. destruct points; [contradiction|].
    discriminate.
Qed.

(** C6.  When the sparse query vector can be built and the client answers
    the fusion query with a response, [search_hybrid] returns [None]
    exactly when the fused list of points is empty; otherwise, every
    point storing a text in its payload, it returns, for each fused point
    and in the order of the response, the document made of the point's
    score and of the text stored under ["text"] in that point's
    payload. *)
Theorem search_hybrid_none_iff_empty :
  forall (name : string) (dense_vector : list float)
         (sparse_vector : SparseArg) (sparse : SparseVec)
         (dense_limit sparse_limit limit : Z)
         (self : QdrantDBProvider Engine) (e : Engine)
         (points : list ScoredPoint),
    client self = Some e ->
    cl_SparseVector cl sparse_vector = Return sparse ->
    cl_query_points cl name (FusionQuery RRF)
      (hybrid_prefetches dense_vector sparse dense_limit sparse_limit)
      None limit e
    = Return (QueryResponse points) ->
    (search_hybrid cl name dense_vector sparse_vector
                   dense_limit sparse_limit limit self = (Return None, self)
     <-> points = [])
    /\ (points <> [] ->
        forall texts : list pyval,
          Forall2 stored_text points texts ->
          search_hybrid cl name dense_vector sparse_vector
                        dense_limit sparse_limit limit self
          = (Return (Some (documents points texts)), self)
          /\ List.length (documents points texts) = List.length points).
Proof.
  intros name dv sa sv dl sl limit self e points Hc Hsv Hq.
  unfold search_hybrid, bind, lift, client_read. rewrite Hsv, Hc, Hq.
  split; [split|].
  - intros Hnone. destruct points as [|p ps]; [reflexivity|].
    rewrite len_nonzero in Hnone by discriminate.
    unfold ret in Hnone.
    destruct (retrieved_documents (p :: ps)); discriminate.
  - intros ->. reflexivity.
  - intros Hne texts Htexts. rewrite (len_nonzero _ points Hne).
    unfold ret. rewrite (retrieved_documents_stored _ _ Htexts).
    split; [reflexivity|]. exact (documents_length _ _ Htexts).
Qed.

End SearchFacts.

Section ConstructorFacts.

Context {Engine SparseArg SparseVec : Type}.
Variable cl : QdrantClient Engine SparseArg SparseVec.
Variables COSINE_value DOT_value : string.

(** [create_collection] on a connected provider without a distance, for a
    collection the client reports absent: [VectorParams] refuses the
    [None] distance, so the call raises before the client is asked to
    delete or create anything. *)
Lemma create_collection_without_distance :
  forall (name : string) (size : Z) (do_reset : bool)
         (self : QdrantDBProvider Engine) (e : Engine),
    client self = Some e ->
    distance_method self = None ->
    cl_collection_exists cl name e = Return false ->
    create_collection cl name size do_reset self
    = (Raise ValidationError, self).
Proof.
  intros name size do_reset self e Hc Hd Habs.
  unfold create_collection, bind, ret.
  destruct do_reset.
  - rewrite (delete_collection_connected cl name self e false Hc Habs).
    rewrite (is_collection_existed_connected cl name self e Hc), Habs.
    simpl. unfold client_call, client_create_collection.
    rewrite Hc, Hd. simpl. now rewrite (set_client_same self e Hc).
  - rewrite (is_collection_existed_connected cl name self e Hc), Habs.
    simpl. unfold client_call, client_create_collection.
    rewrite Hc, Hd. simpl. now rewrite (set_client_same self e Hc).
Qed.

(** C9, as the program runs.  For a [distance_method] string that is
    neither the cosine value nor the dot value, [__init__] (a total
    function, so it completes without raising) leaves [distance_method] at
    [None], and [connect] keeps it.  A later [create_collection] of a
    collection the client reports absent does not configure anything:
    [models.VectorParams] refuses the [None] distance with a
    [ValidationError], which leaves [create_collection] before the client
    is asked to create the collection, the provider and its engine staying
    as they were. *)
Theorem init_unknown_distance_then_create_raises :
  forall (path method : string),
    method <> COSINE_value ->
    method <> DOT_value ->
    let self := init COSINE_value DOT_value path method in
    let connected := snd (connect cl self) in
    self = mkProvider (None : option Engine) path None
    /\ distance_method connected = None
    /\ (forall (name : string) (size : Z) (do_reset : bool),
           cl_collection_exists cl name (cl_open cl path) = Return false ->
           create_collection cl name size do_reset connected
           = (Raise ValidationError, connected)).
Proof.
  intros path method Hcos Hdot self connected.
  assert (Hself : self = mkProvider (None : option Engine) path None).
  { unfold self, init.
    apply String.eqb_neq in Hcos. apply String.eqb_neq in Hdot.
    rewrite Hcos, Hdot. reflexivity. }
  split; [exact Hself|].
  unfold connected. rewrite Hself. simpl. split; [reflexivity|].
  intros name size do_reset Habs.
  apply create_collection_without_distance with (e := cl_open cl path);
    [reflexivity|reflexivity|exact Habs].
Qed.

End ConstructorFacts.

Lemma nth_error_skipn_cons :
  forall (A : Type) (l : list A) (k : nat) (a : A),
    nth_error l k = Some a -> skipn k l = a :: skipn (S k) l.
Proof.
  intros A l. induction l as [|b l IH]; intros k a H.
  - destruct k; discriminate.
  - destruct k as [|k]; simpl in H.
    + inversion H. reflexivity.
    + simpl. exact (IH k a H).
Qed.

Lemma Forall2_map_left :
  forall (A B C : Type) (P : B -> C -> Prop) (h : A -> B)
         (l : list A) (l' : list C),
    Forall2 P (map h l) l' -> Forall2 (fun a c => P (h a) c) l l'.
Proof.
  intros A B C P h l. induction l as [|a l IH]; intros l' H;
    inversion H; subst; constructor; auto.
Qed.

(** Reading positions [a, a+1, ..., a+m-1] of [L] one by one gives the
    piece of [L] that starts at [a]. *)
Lemma positions_read :
  forall (C R V : Type) (L : list C) (G : R -> V) (h : C -> V)
         (m a : nat) (recs : list R),
    Forall2 (fun k r => exists v, nth_error L k = Some v /\ G r = h v)
            (seq a m) recs ->
    map G recs = map h (firstn m (skipn a L)).
Proof.
  intros C R V L G h m. induction m as [|m IH]; intros a recs H.
  - inversion H. reflexivity.
  - simpl in H. inversion H as [|k r ks rs [v [Hv Hg]] Hrest]; subst.
    rewrite (nth_error_skipn_cons _ L a v Hv). simpl.
    rewrite Hg. f_equal. exact (IH (S a) rs Hrest).
Qed.

(* ================================================================== *)
(** ** [insert_many] *)

Section InsertManyFacts.

Context {Engine SparseArg SparseVec : Type}.
Variable cl : QdrantClient Engine SparseArg SparseVec.
Variable name : string.

Lemma upload_batch_ok :
  forall (b : list (Record_ SparseVec)) (self : QdrantDBProvider Engine)
         (e e1 : Engine) (u : unit),
    client self = Some e ->
    cl_upload_records cl name b e = (Return u, e1) ->
    upload_batch cl name b self = (Return true, set_client self (Some e1)).
Proof.
  intros b self e e1 u Hc Hup.
  unfold upload_batch, try_except, bind, client_call.
  rewrite Hc, Hup. reflexivity.
Qed.

Lemma upload_batch_raises :
  forall (b : list (Record_ SparseVec)) (self : QdrantDBProvider Engine)
         (e e2 : Engine) (x : exn),
    client self = Some e ->
    cl_upload_records cl name b e = (Raise x, e2) ->
    upload_batch cl name b self = (Return false, set_client self (Some e2)).
Proof.
  intros b self e e2 x Hc Hup.
  unfold upload_batch, try_except, bind, client_call.
  rewrite Hc, Hup. reflexivity.
Qed.

(** The handler turns every exception of the upload into [False]. *)
Lemma upload_batch_returns :
  forall (b : list (Record_ SparseVec)) (self : QdrantDBProvider Engine),
    exists r self', upload_batch cl name b self = (Return r, self').
Proof.
  intros b self. unfold upload_batch, try_except, bind, client_call.
  destruct (client self) as [e|]; [|now eexists; eexists].
  destruct (cl_upload_records cl name b e) as [[u|x] e']; simpl;
    now eexists; eexists.
Qed.

Section Loop.

Variable texts : list string.
Variable dense_vectors : list (list float).
Variable sparse_vectors : list SparseArg.
Variable metadata : list pyval.
Variable record_ids : list PointId.
Variable batch_size : Z.

Local Abbreviation records_at :=
  (batch_records cl texts dense_vectors sparse_vectors metadata record_ids
                 batch_size).

Local Abbreviation loop :=
  (insert_many_loop cl name texts dense_vectors sparse_vectors metadata
                    record_ids batch_size).

(** With every batch built, the loop is the plain sequence of uploads. *)
Lemma loop_is_upload_batches :
  forall (starts : list Z) (batches : list (list (Record_ SparseVec)))
         (self : QdrantDBProvider Engine),
    comprehension records_at starts = Return batches ->
    loop starts self = upload_batches cl name batches self.
Proof.
  induction starts as [|i rest IH]; intros batches self H.
  - simpl in H. inversion H. reflexivity.
  - apply comprehension_cons_inv in H.
    destruct H as [b [bs [-> [Hb Hrest]]]].
    simpl. unfold bind, lift.
    rewrite Hb.
    destruct (upload_batch cl name b self) as [[[|]|x] self'];
      try reflexivity.
    apply IH. exact Hrest.
Qed.

(** Batches that build and upload without trouble are passed over. *)
Lemma loop_skips_good_prefix :
  forall (s1 s2 : list Z) (done : list (list (Record_ SparseVec)))
         (self : QdrantDBProvider Engine) (e e1 : Engine),
    client self = Some e ->
    comprehension records_at s1 = Return done ->
    uploads_ok cl name done e e1 ->
    loop (s1 ++ s2) self = loop s2 (set_client self (Some e1)).
Proof.
  induction s1 as [|i s1 IH]; intros s2 done self e e1 Hc Hb Hup.
  - simpl in Hb. inversion Hb; subst. inversion Hup; subst.
    simpl. now rewrite set_client_same.
  - apply comprehension_cons_inv in Hb.
    destruct Hb as [b [bs [-> [Hb Hrest]]]].
    inversion Hup as [|? ? ? e' ? u Hfirst Hothers]; subst.
    simpl. unfold bind, lift.
    rewrite Hb, (upload_batch_ok b self e e' u Hc Hfirst).
    rewrite (IH s2 bs (set_client self (Some e')) e' e1 eq_refl
                Hrest Hothers).
    reflexivity.
Qed.

(** The first upload that raises ends the loop with [False]. *)
Lemma loop_stops_at_failed_upload :
  forall (i : Z) (rest : list Z) (bad : list (Record_ SparseVec))
         (self : QdrantDBProvider Engine) (e e2 : Engine) (x : exn),
    client self = Some e ->
    records_at i = Return bad ->
    cl_upload_records cl name bad e = (Raise x, e2) ->
    loop (i :: rest) self = (Return false, set_client self (Some e2)).
Proof.
  intros i rest bad self e e2 x Hc Hb Hup.
  simpl. unfold bind, lift.
  rewrite Hb, (upload_batch_raises bad self e e2 x Hc Hup). reflexivity.
Qed.

(** A batch whose records cannot be built lets the exception out. *)
Lemma loop_raises_at_unbuilt_batch :
  forall (i : Z) (rest : list Z) (self : QdrantDBProvider Engine)
         (x : exn),
    records_at i = Raise x ->
    loop (i :: rest) self = (Raise x, self).
Proof.
  intros i rest self x Hb.
  simpl. unfold bind, lift.
  rewrite Hb. reflexivity.
Qed.

Lemma loop_never_true_past_unbuilt_batch :
  forall (starts : list Z) (i : Z) (self : QdrantDBProvider Engine),
    In i starts ->
    (exists x, records_at i = Raise x) ->
    fst (loop starts self) <> Return true.
Proof.
  induction starts as [|i0 rest IH]; intros i self Hin Hraise;
    [contradiction|].
  destruct (records_at i0) as [b|x] eqn:Hb.
  - destruct Hin as [->|Hin].
    { destruct Hraise as [x Hx]. congruence. }
    simpl. unfold bind, lift. rewrite Hb.
    destruct (upload_batch_returns b self) as [r [self' Hr]].
    rewrite Hr. destruct r.
    + exact (IH i self' Hin Hraise).
    + simpl. discriminate.
  - rewrite (loop_raises_at_unbuilt_batch i0 rest self x Hb).
    simpl. discriminate.
Qed.

(** What a built batch holds: record [k] of the batch that starts at
    [i] has the id at position [k] of the ids slice and the text at
    position [k] of the texts slice. *)
Lemma batch_records_positions :
  forall (i : Z) (recs : list (Record_ SparseVec)),
    records_at i = Return recs ->
    Forall2
      (fun k r =>
         (exists v, nth_error (slice record_ids i (i + batch_size)) k
                    = Some v /\ r_id r = v)
         /\ (exists t, nth_error (slice texts i (i + batch_size)) k
                       = Some t
                       /\ record_text r = Return (PyStr t)))
      (seq 0 (List.length (slice texts i (i + batch_size)))) recs.
Proof.
  intros i recs H. unfold batch_records in H.
  apply comprehension_Forall2 in H. unfold range1, len in H.
  rewrite Nat2Z.id in H. apply Forall2_map_left in H.
  revert H. apply Forall2_impl. intros k r Hbody.
  rewrite !index_of_nat in Hbody.
  destruct (nth_error (slice record_ids i (i + batch_size)) k)
    as [v|]; [simpl in Hbody|discriminate].
  destruct (nth_error (slice dense_vectors i (i + batch_size)) k)
    as [d|]; [simpl in Hbody|discriminate].
  destruct (nth_error (slice sparse_vectors i (i + batch_size)) k)
    as [sa|]; [simpl in Hbody|discriminate].
  destruct (cl_SparseVector cl sa) as [sv|]; [simpl in Hbody|discriminate].
  destruct (nth_error (slice texts i (i + batch_size)) k)
    as [t|]; [simpl in Hbody|discriminate].
  destruct (nth_error (slice metadata i (i + batch_size)) k)
    as [m|]; [simpl in Hbody|discriminate].
  inversion Hbody; subst. split.
  - exists v. split; reflexivity.
  - exists t. split; reflexivity.
Qed.

Lemma batch_records_ids_and_texts :
  forall (i : Z) (recs : list (Record_ SparseVec)),
    0 <= i -> 0 < batch_size ->
    len record_ids = len texts ->
    records_at i = Return recs ->
    map r_id recs = slice record_ids i (i + batch_size)
    /\ map record_text recs
       = map (fun t => Return (PyStr t)) (slice texts i (i + batch_size)).
Proof.
  intros i recs Hi Hbs Hlen H.
  apply batch_records_positions in H.
  assert (Hsame : List.length (slice record_ids i (i + batch_size))
                  = List.length (slice texts i (i + batch_size))).
  { pose proof (slice_length record_ids i batch_size Hi Hbs) as H1.
    pose proof (slice_length texts i batch_size Hi Hbs) as H2.
    unfold len in *. lia. }
  split.
  - rewrite <- (map_id (slice record_ids i (i + batch_size))).
    rewrite <- (firstn_all (slice record_ids i (i + batch_size))), Hsame.
    apply (positions_read _ _ _ (slice record_ids i (i + batch_size))
                          r_id (fun v => v) _ 0%nat recs).
    revert H. apply Forall2_impl. intros k r [[v [Hv Hid]] _].
    exists v. split; assumption.
  - rewrite <- (firstn_all (slice texts i (i + batch_size))).
    apply (positions_read _ _ _ (slice texts i (i + batch_size))
                          record_text (fun t => Return (PyStr t))
                          _ 0%nat recs).
    revert H. apply Forall2_impl. intros k r [_ [t [Ht Htext]]].
    exists t. split; assumption.
Qed.

Lemma batches_ids_and_texts :
  forall (starts : list Z) (batches : list (list (Record_ SparseVec))),
    0 < batch_size ->
    len record_ids = len texts ->
    (forall i, In i starts -> 0 <= i) ->
    comprehension records_at starts = Return batches ->
    map (map r_id) batches
    = map (fun i => slice record_ids i (i + batch_size)) starts
    /\ map (map record_text) batches
       = map (fun i => map (fun t => Return (PyStr t))
                           (slice texts i (i + batch_size))) starts.
Proof.
  induction starts as [|i rest IH]; intros batches Hbs Hlen Hpos H.
  - simpl in H. inversion H. split; reflexivity.
  - apply comprehension_cons_inv in H.
    destruct H as [b [bs [-> [Hb Hrest]]]].
    destruct (batch_records_ids_and_texts i b
                (Hpos i (or_introl eq_refl)) Hbs Hlen Hb) as [Hids Htexts].
    destruct (IH bs Hbs Hlen
                 (fun j Hj => Hpos j (or_intror Hj)) Hrest) as [IH1 IH2].
    simpl. rewrite Hids, Htexts, IH1, IH2. split; reflexivity.
Qed.

(** A batch that runs past the end of a shorter input cannot be built. *)
Lemma batch_records_short_input :
  forall (i m : Z),
    0 <= i -> 0 < batch_size ->
    i <= m < i + batch_size ->
    m < len texts ->
    Z.min (Z.min (len record_ids) (len dense_vectors))
          (Z.min (len sparse_vectors) (len metadata)) <= m ->
    exists x, records_at i = Raise x.
Proof.
  intros i m Hi Hbs Hm Htexts Hshort.
  assert (Hout : forall (C : Type) (L : list C),
             len L <= m ->
             index (slice L i (i + batch_size)) (m - i) = Raise IndexError).
  { intros C L HL. apply index_out_of_range; [lia|].
    rewrite slice_length by lia. lia. }
  unfold batch_records.
  apply comprehension_raises with (a := m - i).
  - apply range1_In. rewrite slice_length by lia. lia.
  - destruct (index (slice record_ids i (i + batch_size)) (m - i))
      as [v|x] eqn:E1; [simpl|now exists x].
    destruct (index (slice dense_vectors i (i + batch_size)) (m - i))
      as [d|x] eqn:E2; [simpl|now exists x].
    destruct (index (slice sparse_vectors i (i + batch_size)) (m - i))
      as [sa|x] eqn:E3; [simpl|now exists x].
    destruct (cl_SparseVector cl sa) as [sv|x]; [simpl|now exists x].
    destruct (index (slice texts i (i + batch_size)) (m - i))
      as [t|x] eqn:E4; [simpl|now exists x].
    destruct (index (slice metadata i (i + batch_size)) (m - i))
      as [md|x] eqn:E5; [simpl|now exists x].
    exfalso.
    destruct (Z_le_gt_dec (len record_ids) m) as [H1|H1];
      [rewrite (Hout _ _ H1) in E1; discriminate|].
    destruct (Z_le_gt_dec (len dense_vectors) m) as [H2|H2];
      [rewrite (Hout _ _ H2) in E2; discriminate|].
    destruct (Z_le_gt_dec (len sparse_vectors) m) as [H3|H3];
      [rewrite (Hout _ _ H3) in E3; discriminate|].
    destruct (Z_le_gt_dec (len metadata) m) as [H5|H5];
      [rewrite (Hout _ _ H5) in E5; discriminate|].
    lia.
Qed.

End Loop.

Lemma batch_starts_nonneg :
  forall (step : Z) (c : nat) (i : Z),
    0 < step ->
    In i (map (fun k => Z.of_nat k * step) (seq 0 c)) -> 0 <= i.
Proof.
  intros step c i Hs Hin. apply in_map_iff in Hin.
  destruct Hin as [k [<- _]]. nia.
Qed.

(** The slices taken at the batch starts, glued together, are the list. *)
Lemma slices_concat :
  forall (C : Type) (l : list C) (step : Z) (c : nat),
    0 < step ->
    len l <= Z.of_nat c * step ->
    List.concat (map (fun i => slice l i (i + step))
                     (map (fun k => Z.of_nat k * step) (seq 0 c)))
    = l.
Proof.
  intros C l step c Hs Hlen. rewrite map_map.
  rewrite (map_ext _ (fun k => firstn (Z.to_nat step)
                                      (skipn (k * Z.to_nat step) l))).
  - rewrite chunks_concat; [reflexivity|]. unfold len in Hlen. nia.
  - intros k. rewrite slice_nonneg by nia. f_equal; [f_equal; lia|].
    f_equal. rewrite Z2Nat.inj_mul by lia. now rewrite Nat2Z.id.
Qed.

Lemma default_record_ids_length :
  forall texts : list string,
    len (record_ids_or_default texts None) = len texts.
Proof.
  intros texts. unfold record_ids_or_default, len.
  rewrite length_map, range1_length. unfold len. now rewrite Nat2Z.id.
Qed.

Lemma insert_many_unfold :
  forall (texts : list string) (dense : list (list float))
         (sparse : list SparseArg) (metadata : option (list pyval))
         (record_ids : option (list PointId)) (batch_size : Z)
         (starts : list Z) (self : QdrantDBProvider Engine),
    range3 0 (len texts) batch_size = Return starts ->
    insert_many cl name texts dense sparse metadata record_ids batch_size
                self
    = insert_many_loop cl name texts dense sparse
        (metadata_or_default texts metadata)
        (record_ids_or_default texts record_ids) batch_size starts self.
Proof.
  intros texts dense sparse metadata record_ids batch_size starts self H.
  unfold insert_many, insert_many_body, bind, lift. now rewrite H.
Qed.

(** C1.  When the upload of batch [j] is the first to raise (the batches
    before it were built and uploaded one after the other, taking the
    engine from [e] to [e1]), [insert_many] returns [False] at once: the
    engine it leaves is the one the failed upload left from [e1], so the
    earlier batches stay uploaded and no later batch is built or sent. *)
Theorem insert_many_failed_upload_returns_false :
  forall (texts : list string) (dense : list (list float))
         (sparse : list SparseArg) (metadata : option (list pyval))
         (record_ids : option (list PointId)) (batch_size : Z)
         (self : QdrantDBProvider Engine) (e e1 e2 : Engine)
         (starts : list Z) (j : nat)
         (done : list (list (Record_ SparseVec)))
         (bad : list (Record_ SparseVec)) (x : exn),
    client self = Some e ->
    range3 0 (len texts) batch_size = Return starts ->
    comprehension
      (batch_records cl texts dense sparse
                     (metadata_or_default texts metadata)
                     (record_ids_or_default texts record_ids) batch_size)
      (firstn (S j) starts)
    = Return (done ++ [bad])%list ->
    List.length done = j ->
    uploads_ok cl name done e e1 ->
    cl_upload_records cl name bad e1 = (Raise x, e2) ->
    insert_many cl name texts dense sparse metadata record_ids batch_size
                self
    = (Return false, set_client self (Some e2)).
Proof.
  intros texts dense sparse metadata record_ids batch_size self e e1 e2
         starts j done bad x Hc Hstarts Hbuilt Hj Hdone Hbad.
  rewrite (insert_many_unfold _ _ _ _ _ _ starts self Hstarts).
  rewrite <- (firstn_skipn (S j) starts).
  remember (firstn (S j) starts) as s1 eqn:Hs1. clear Hs1 Hj Hstarts.
  remember (skipn (S j) starts) as s2 eqn:Hs2. clear Hs2.
  revert s1 self e Hc Hbuilt Hdone.
  induction done as [|d done IH]; intros s1 self e Hc Hbuilt Hdone.
  - inversion Hdone; subst. destruct s1 as [|i s1]; [discriminate|].
    apply comprehension_cons_inv in Hbuilt.
    destruct Hbuilt as [b [bs [Heq [Hb Hrest]]]].
    simpl in Heq. inversion Heq; subst.
    apply comprehension_nil_inv in Hrest. subst s1. simpl app.
    exact (loop_stops_at_failed_upload _ _ _ _ _ _ i s2 b self e1 e2 x
                                       Hc Hb Hbad).
  - destruct s1 as [|i s1]; [destruct done; discriminate|].
    apply comprehension_cons_inv in Hbuilt.
    destruct Hbuilt as [b [bs [Heq [Hb Hrest]]]].
    simpl in Heq. inversion Heq; subst.
    inversion Hdone as [|? ? ? e' ? u Hfirst Hothers]; subst.
    simpl. unfold bind, lift.
    rewrite Hb, (upload_batch_ok b self e e' u Hc Hfirst).
    rewrite (IH s1 (set_client self (Some e')) e' eq_refl Hrest Hothers).
    reflexivity.
Qed.

(** C8.  With [record_ids] omitted and a positive batch size, the records
    that [insert_many] builds, taken batch after batch, carry the ids
    [0, 1, ..., len(texts)-1] in this order, next to the texts in input
    order; and the call is the upload of these batches one by one. *)
Theorem insert_many_default_ids_are_sequential :
  forall (texts : list string) (dense : list (list float))
         (sparse : list SparseArg) (metadata : option (list pyval))
         (batch_size : Z) (starts : list Z)
         (batches : list (list (Record_ SparseVec)))
         (self : QdrantDBProvider Engine),
    0 < batch_size ->
    range3 0 (len texts) batch_size = Return starts ->
    comprehension
      (batch_records cl texts dense sparse
                     (metadata_or_default texts metadata)
                     (record_ids_or_default texts None) batch_size)
      starts
    = Return batches ->
    map r_id (List.concat batches) = map IdInt (range1 (len texts))
    /\ map record_text (List.concat batches)
       = map (fun t => Return (PyStr t)) texts
    /\ insert_many cl name texts dense sparse metadata None batch_size self
       = upload_batches cl name batches self.
Proof.
  intros texts dense sparse metadata batch_size starts batches self
         Hbs Hstarts Hbuilt.
  pose proof (len_nonneg texts) as Hn.
  pose proof Hstarts as Hrange.
  rewrite (range3_positive_step _ _ Hn Hbs) in Hrange.
  inversion Hrange as [Hs]. clear Hrange.
  pose proof (batch_count_covers _ _ Hn Hbs) as Hcover.
  destruct (batches_ids_and_texts _ _ _ _ _ _ starts batches Hbs
              (default_record_ids_length texts)
              ltac:(rewrite <- Hs; intros i Hi;
                    exact (batch_starts_nonneg _ _ i Hbs Hi))
              Hbuilt) as [Hids Htexts].
  repeat split.
  - rewrite concat_map, Hids, <- Hs.
    apply slices_concat; [exact Hbs|].
    pose proof (default_record_ids_length texts) as Hl.
    unfold record_ids_or_default in Hl.
    rewrite Hl, Z2Nat.id; [exact Hcover|].
    apply Z.div_pos; lia.
  - rewrite concat_map, Htexts, <- Hs.
    rewrite <- (map_map (fun i => slice texts i (i + batch_size))
                        (map (fun t => Return (PyStr t)))).
    rewrite <- concat_map. f_equal.
    apply slices_concat; [exact Hbs|].
    rewrite Z2Nat.id; [exact Hcover|]. apply Z.div_pos; lia.
  - rewrite (insert_many_unfold _ _ _ _ _ _ starts self Hstarts).
    apply loop_is_upload_batches. exact Hbuilt.
Qed.

(** C4, as the code has it.  There is no length check.  When one of
    [record_ids], [dense_vectors], [sparse_vectors], [metadata] runs out
    at position [m], before [texts] does, and the batch size is positive:
    [insert_many] never returns [True]; and when the batches before the
    one holding position [m] are built and uploaded (none, if [m] lies
    in the first batch), the call leaves them uploaded and raises while
    it builds the batch holding [m]. *)
Theorem insert_many_short_input_raises_midway :
  forall (texts : list string) (dense : list (list float))
         (sparse : list SparseArg) (metadata : option (list pyval))
         (record_ids : option (list PointId)) (batch_size m : Z)
         (starts : list Z) (self : QdrantDBProvider Engine),
    0 < batch_size ->
    m = Z.min (Z.min (len (record_ids_or_default texts record_ids))
                     (len dense))
              (Z.min (len sparse) (len (metadata_or_default texts metadata)))
    ->
    m < len texts ->
    range3 0 (len texts) batch_size = Return starts ->
    fst (insert_many cl name texts dense sparse metadata record_ids
                     batch_size self) <> Return true
    /\ (forall (e e1 : Engine) (done : list (list (Record_ SparseVec))),
           client self = Some e ->
           comprehension
             (batch_records cl texts dense sparse
                            (metadata_or_default texts metadata)
                            (record_ids_or_default texts record_ids)
                            batch_size)
             (firstn (Z.to_nat (m / batch_size)) starts)
           = Return done ->
           uploads_ok cl name done e e1 ->
           exists x,
             insert_many cl name texts dense sparse metadata record_ids
                         batch_size self
             = (Raise x, set_client self (Some e1))).
Proof.
  intros texts dense sparse metadata record_ids batch_size m starts self
         Hbs Hm Hshort Hstarts.
  pose proof (len_nonneg texts) as Hn.
  assert (Hm0 : 0 <= m).
  { pose proof (len_nonneg (record_ids_or_default texts record_ids)).
    pose proof (len_nonneg dense). pose proof (len_nonneg sparse).
    pose proof (len_nonneg (metadata_or_default texts metadata)). lia. }
  set (j := Z.to_nat (m / batch_size)).
  set (c := Z.to_nat ((len texts + batch_size - 1) / batch_size)).
  assert (Hs : map (fun k => Z.of_nat k * batch_size) (seq 0 c) = starts).
  { pose proof Hstarts as Hrange.
    rewrite (range3_positive_step _ _ Hn Hbs) in Hrange.
    now inversion Hrange. }
  assert (Hq : 0 <= m / batch_size) by (apply Z.div_pos; lia).
  assert (Hjc : (j < c)%nat).
  { unfold j, c.
    replace (len texts + batch_size - 1)
      with (len texts - 1 + 1 * batch_size) by lia.
    rewrite Z.div_add by lia.
    assert (m / batch_size <= (len texts - 1) / batch_size)
      by (apply Z.div_le_mono; lia).
    lia. }
  assert (Hbad : nth_error starts j = Some (Z.of_nat j * batch_size)).
  { rewrite <- Hs.
    rewrite (nth_error_map (fun k => Z.of_nat k * batch_size) j (seq 0 c)).
    rewrite nth_error_seq.
    apply Nat.ltb_lt in Hjc. rewrite Hjc. reflexivity. }
  assert (Hwindow : Z.of_nat j * batch_size <= m
                    < Z.of_nat j * batch_size + batch_size).
  { unfold j. rewrite Z2Nat.id by exact Hq.
    pose proof (Z.div_mod m batch_size ltac:(lia)).
    pose proof (Z.mod_pos_bound m batch_size Hbs). nia. }
  destruct (batch_records_short_input texts dense sparse
              (metadata_or_default texts metadata)
              (record_ids_or_default texts record_ids) batch_size
              (Z.of_nat j * batch_size) m ltac:(nia) Hbs Hwindow Hshort
              ltac:(lia)) as [x Hx].
  rewrite (insert_many_unfold _ _ _ _ _ _ starts self Hstarts).
  split.
  - apply loop_never_true_past_unbuilt_batch
      with (i := Z.of_nat j * batch_size).
    + exact (nth_error_In _ _ Hbad).
    + now exists x.
  - intros e e1 done Hc Hbuilt Hdone. exists x.
    rewrite <- (firstn_skipn j starts).
    rewrite (loop_skips_good_prefix _ _ _ _ _ _ _ _ done self e e1
                                    Hc Hbuilt Hdone).
    rewrite (nth_error_skipn_cons _ starts j _ Hbad).
    apply loop_raises_at_unbuilt_batch. exact Hx.
Qed.

(** C10, as the code has it.  With an empty [texts] list the loop has no
    batch: the call touches neither the client nor the provider, and it
    returns [True] for every batch size but 0, for which [range] raises
    [ValueError]. *)
Theorem insert_many_empty_texts :
  forall (dense : list (list float)) (sparse : list SparseArg)
         (metadata : option (list pyval))
         (record_ids : option (list PointId)) (batch_size : Z)
         (self : QdrantDBProvider Engine),
    insert_many cl name [] dense sparse metadata record_ids batch_size self
    = (if batch_size =? 0 then Raise ValueError else Return true, self).
Proof.
  intros dense sparse metadata record_ids batch_size self.
  unfold insert_many, insert_many_body, bind, lift.
  change (len (@nil string)) with 0.
  destruct (batch_size =? 0) eqn:E.
  - apply Z.eqb_eq in E. subst. reflexivity.
  - apply Z.eqb_neq in E. rewrite (range3_empty _ E). reflexivity.
Qed.

End InsertManyFacts.

(* ================================================================== *)
(** ** Reciprocal Rank Fusion: the score table against the reference *)

Lemma PointId_eqb_eq :
  forall a b : PointId, PointId_eqb a b = true <-> a = b.
Proof.
  intros [x|x] [y|y]; simpl; split; intros H; try discriminate.
  - apply Z.eqb_eq in H. now subst.
  - inversion H. apply Z.eqb_refl.
  - apply String.eqb_eq in H. now subst.
  - inversion H. apply String.eqb_refl.
Qed.


Lemma PointId_eqb_neq :
  forall a b : PointId, PointId_eqb a b = false <-> a <> b.
Proof.
  intros a b. split.
  - intros H Heq. apply PointId_eqb_eq in Heq. congruence.
  - intros H. destruct (PointId_eqb a b) eqn:E; [|reflexivity].
    apply PointId_eqb_eq in E. contradiction.
Qed.

Module RRFusionFacts.

Import RRFusion.
Local Open Scope Q_scope.

Section Constant.

(** The constant of the fusion, which is not negative. *)
Variable k : Z.
Hypothesis k_nonneg : (0 <= k)%Z.


(** *** The table after one more point *)





(** *** The table after one ranked list *)



Lemma rank_from_present :
  forall (i : PointId) (l : list ScoredPoint) (rank : Z),
    In i (ids l) -> exists r, rank_from rank i l = Some r.
Proof.
  intros i l. induction l as [|p l IH]; intros rank Hin; simpl in *.
  - contradiction.
  - destruct (PointId_eqb (sp_id p) i) eqn:E; [now eexists|].
    apply PointId_eqb_neq in E. destruct Hin as [Heq|Hin]; [congruence|].
    now apply IH.
Qed.






(** *** The table after all the lists *)






(** *** Sorting *)





(** *** The modelled fusion is the reference fusion *)



End Constant.

End RRFusionFacts.

Module RRFusionExample.

Import RRFusion.
Local Open Scope Q_scope.

Section Constant.

Variable k : Z.
Hypothesis k_nonneg : (0 <= k)%Z.




End Constant.

End RRFusionExample.

(* ================================================================== *)
(** ** [search_hybrid] over an engine that fuses by RRF *)



Section HybridFusion.

Import RRFusion.
Local Open Scope Q_scope.

Context {Engine SparseArg SparseVec : Type}.
Variable cl : QdrantClient Engine SparseArg SparseVec.

(** The ranked list a sub-search of the engine finds for one prefetch,
    best first and already cut to the prefetch limit. *)
Variable sub_search :
  Engine -> string -> Prefetch SparseVec -> list ScoredPoint.

(** The constant of the engine's fusion. *)
Variable k : Z.
Hypothesis k_nonneg : (0 <= k)%Z.

(** The engine answers a fusion query with the fusion of the ranked lists
    of its prefetches, as the specification describes it, with its own
    constant. *)
Hypothesis engine_fuses :
  forall (e : Engine) (name : string) (prefetches : list (Prefetch SparseVec))
         (limit : Z),
    cl_query_points cl name (FusionQuery RRF) prefetches None limit e
    = Return (QueryResponse
                (rrf_fusion k (map (sub_search e name) prefetches) limit)).


End HybridFusion.

(* ================================================================== *)
(** ** The statements at concrete inputs *)

Module Runs.

Import InMemory Scenario ScenarioRest.

Lemma delete_collection_absent_noop_witness :
  delete_collection local_client "docs" fresh = (Return None, fresh)
  /\ delete_collection local_client "docs" with_docs
     = (Return (Some true), fresh).
Proof.
  split.
  - apply (proj1 (delete_collection_absent_noop
                    local_client "docs" fresh empty eq_refl)).
    reflexivity.
  - apply (proj2 (delete_collection_absent_noop
                    local_client "docs" with_docs docs_store eq_refl)
                 eq_refl (Return true) empty).
    reflexivity.
Defined.

Lemma create_collection_twice_witness :
  create_collection local_client "docs" 2 false fresh
  = (Return true, with_docs)
  /\ create_collection local_client "docs" 3 false with_docs
     = (Return false, with_docs)
  /\ create_collection local_client "docs" 3 true with_docs
     = (Return true,
        mkProvider (Some (mkStore [("docs", 3)] [] [] [])) "db"
                   (Some COSINE)).
Proof.
  destruct (create_collection_twice
              local_client "docs" 2 3 fresh empty docs_store true
              eq_refl eq_refl eq_refl eq_refl) as [H1 [H2 H3]].
  split; [exact H1|]. split; [exact H2|].
  exact (H3 empty (mkStore [("docs", 3)] [] [] []) true true
            eq_refl eq_refl eq_refl).
Defined.

Lemma insert_many_failed_upload_returns_false_witness :
  insert_many local_client "docs" texts4 dense4 sparse4 None None 2
              with_docs
  = (Return false, set_client with_docs (Some after_batch0)).
Proof.
  apply (insert_many_failed_upload_returns_false
           local_client "docs" texts4 dense4 sparse4 None None 2
           with_docs docs_store after_batch0 after_batch0
           [0; 2] 1%nat [batch0] batch1
           (ClientError "dimension mismatch")).
  - reflexivity.
  - reflexivity.
  - reflexivity.
  - reflexivity.
  - apply uploads_cons with (e1 := after_batch0) (u := tt).
    + reflexivity.
    + apply uploads_nil.
  - reflexivity.
Defined.

Lemma insert_many_default_ids_are_sequential_witness :
  map r_id (List.concat batches3) = [IdInt 0; IdInt 1; IdInt 2]
  /\ map record_text (List.concat batches3)
     = [Return (PyStr "t0"); Return (PyStr "t1"); Return (PyStr "t2")]
  /\ insert_many local_client "docs" texts3 dense3 sparse3 None None 2
                 with_docs
     = upload_batches local_client "docs" batches3 with_docs.
Proof.
  apply (insert_many_default_ids_are_sequential
           local_client "docs" texts3 dense3 sparse3 None 2 [0; 2]
           batches3 with_docs).
  - reflexivity.
  - reflexivity.
  - reflexivity.
Defined.

(** C4 fails as stated: with two texts and one dense vector, taken in
    batches of one, the first record is uploaded before the call raises
    [IndexError]; the call neither leaves the store untouched nor
    returns [False]. *)
Lemma mismatched_lengths_upload_first_batch :
  len dense1 < len texts2
  /\ insert_many local_client "docs" texts2 dense1 sparse2 None None 1
                 with_docs
     = (Raise IndexError, set_client with_docs (Some after_record0))
  /\ points after_record0 <> points docs_store.
Proof.
  split; [reflexivity|]. split; [reflexivity|]. discriminate.
Qed.

Lemma insert_many_short_input_raises_midway_witness :
  fst (insert_many local_client "docs" texts2 dense1 sparse2 None None 1
                   with_docs) <> Return true
  /\ exists x,
       insert_many local_client "docs" texts2 dense1 sparse2 None None 1
                   with_docs
       = (Raise x, set_client with_docs (Some after_record0)).
Proof.
  destruct (insert_many_short_input_raises_midway
              local_client "docs" texts2 dense1 sparse2 None None 1 1
              [0; 1] with_docs eq_refl eq_refl eq_refl eq_refl)
    as [Hnot Hraise].
  split; [exact Hnot|].
  apply (Hraise docs_store after_record0
                [[record 0 "t0" [1 # 1; 0 # 1]]] eq_refl eq_refl).
  apply uploads_cons with (e1 := after_record0) (u := tt).
  - reflexivity.
  - apply uploads_nil.
Defined.

(** C10 fails as stated: a batch size of 0 makes [range] raise, so the
    call on empty lists does not return [True]. *)
Lemma zero_batch_size_raises_on_empty_texts :
  insert_many local_client "docs" [] [] [] None None 0 with_docs
  = (Raise ValueError, with_docs).
Proof. reflexivity. Qed.

Lemma stored_text_payload_of :
  forall (i : PointId) (x : Q) (t : string),
    stored_text (mkScoredPoint i x (Some (payload_of t))) (PyStr t).
Proof.
  intros i x t. exists (payload_of t). split; [reflexivity|].
  exists [], [("metadata", PyNone)]. split; [reflexivity|].
  intros [].
Defined.

Lemma search_by_vector_none_or_documents_witness :
  search_by_vector local_client "docs" query_vector 5 with_docs
  = (Return None, with_docs)
  /\ search_by_vector local_client "docs" query_vector 2 with_rankings
     = (Return (Some [ mkRetrievedDocument (9 # 10) (PyStr "A");
                       mkRetrievedDocument (8 # 10) (PyStr "B") ]),
        with_rankings).
Proof.
  split.
  - apply (proj1 (search_by_vector_none_or_documents
                    local_client "docs" query_vector 5 with_docs
                    docs_store [] eq_refl eq_refl)).
    reflexivity.
  - assert (Hne : [pA; pB] <> []) by discriminate.
    assert (Htexts : Forall2 stored_text [pA; pB] [PyStr "A"; PyStr "B"]).
    { constructor; [apply stored_text_payload_of|].
      constructor; [apply stored_text_payload_of|]. constructor. }
    exact (proj1 (proj2 (search_by_vector_none_or_documents
                           local_client "docs" query_vector 2 with_rankings
                           ranked_store [pA; pB] eq_refl eq_refl)
                        Hne [PyStr "A"; PyStr "B"] Htexts)).
Defined.

Lemma search_hybrid_none_iff_empty_witness :
  (search_hybrid local_client "docs" query_vector sv 3 3 4 with_docs
   = (Return None, with_docs) <-> @nil ScoredPoint = [])
  /\ search_hybrid local_client "docs" query_vector sv 3 3 1 with_rankings
     = (Return (Some [ mkRetrievedDocument ((1 # 62) + (1 # 61))
                                           (PyStr "B") ]),
        with_rankings).
Proof.
  split.
  - apply (proj1 (search_hybrid_none_iff_empty
                    local_client "docs" query_vector sv
                    (mkSparseVector [1; 5] [1 # 2; 1 # 4]) 3 3 4
                    with_docs docs_store [] eq_refl eq_refl eq_refl)).
  - assert (Hne : [mkScoredPoint (IdInt 2) ((1 # 62) + (1 # 61))
                                 (Some (payload_of "B"))] <> [])
      by discriminate.
    assert (Htexts :
              Forall2 stored_text
                      [mkScoredPoint (IdInt 2) ((1 # 62) + (1 # 61))
                                     (Some (payload_of "B"))]
                      [PyStr "B"]).
    { constructor; [apply stored_text_payload_of|]. constructor. }
    exact (proj1 (proj2 (search_hybrid_none_iff_empty
                           local_client "docs" query_vector sv
                           (mkSparseVector [1; 5] [1 # 2; 1 # 4]) 3 3 1
                           with_rankings ranked_store
                           [mkScoredPoint (IdInt 2) ((1 # 62) + (1 # 61))
                                          (Some (payload_of "B"))]
                           eq_refl eq_refl eq_refl)
                        Hne [PyStr "B"] Htexts)).
Defined.

(** C9 fails as stated: on a provider built with an unknown distance
    string, [create_collection] of an absent collection configures
    nothing; it raises [ValidationError] and the store has no collection
    afterwards. *)
Lemma unknown_distance_configures_nothing :
  create_collection local_client "docs" 2 false
    (snd (connect local_client (init "cosine" "dot" "db" "euclid")))
  = (Raise ValidationError, mkProvider (Some empty) "db" None)
  /\ collections empty = [].
Proof. split; reflexivity. Qed.

Lemma init_unknown_distance_then_create_raises_witness :
  init "cosine" "dot" "db" "euclid"
  = mkProvider (None : option store) "db" None
  /\ create_collection local_client "docs" 2 true
       (snd (connect local_client (init "cosine" "dot" "db" "euclid")))
     = (Raise ValidationError, mkProvider (Some empty) "db" None).
Proof.
  assert (Hcos : "euclid" <> "cosine") by discriminate.
  assert (Hdot : "euclid" <> "dot") by discriminate.
  destruct (init_unknown_distance_then_create_raises
              local_client "cosine" "dot" "db" "euclid" Hcos Hdot)
    as [Hinit [_ Hcreate]].
  split; [exact Hinit|].
  exact (Hcreate "docs" 2 true eq_refl).
Defined.




End Runs.

(* ================================================================== *)
(** ** The remaining methods: [insert_one], the provider's life cycle *)

Section RestFacts.

Context {Engine SparseArg SparseVec Collections CollectionInfo : Type}.
Variable cl : QdrantClient Engine SparseArg SparseVec.
Variable models_Record :
  list (option PointId) -> list float -> pydict -> outcome (Record_ SparseVec).
Variable cl_get_collections : Engine -> outcome Collections.
Variable cl_get_collection : string -> Engine -> outcome CollectionInfo.

(** X1.  [insert_one] into a collection the client reports absent returns
    [False] and calls nothing else: no record is built or uploaded and the
    provider, with its engine, stays as it was. *)
Theorem insert_one_absent_collection :
  forall (name text : string) (vector : list float) (metadata : pyval)
         (record_id : option PointId) (self : QdrantDBProvider Engine)
         (e : Engine),
    client self = Some e ->
    cl_collection_exists cl name e = Return false ->
    insert_one cl models_Record name text vector metadata record_id self
    = (Return false, self).
Proof.
  intros name text vector metadata record_id self e Hc Hex.
  unfold insert_one, bind.
  rewrite (is_collection_existed_connected cl name self e Hc), Hex.
  reflexivity.
Qed.

Lemma insert_one_present :
  forall (name text : string) (vector : list float) (metadata : pyval)
         (record_id : option PointId) (self : QdrantDBProvider Engine)
         (e : Engine),
    client self = Some e ->
    cl_collection_exists cl name e = Return true ->
    insert_one cl models_Record name text vector metadata record_id self
    = match models_Record [record_id] vector
              [("text", PyStr text); ("metadata", metadata)] with
      | Raise _ => (Return false, self)
      | Return r =>
          match cl_upload_records cl name [r] e with
          | (Return _, e') => (Return true, set_client self (Some e'))
          | (Raise _, e') => (Return false, set_client self (Some e'))
          end
      end.
Proof.
  intros name text vector metadata record_id self e Hc Hex.
  unfold insert_one, bind.
  rewrite (is_collection_existed_connected cl name self e Hc), Hex.
  simpl. unfold try_except, client_call. rewrite Hc.
  destruct (models_Record [record_id] vector
              [("text", PyStr text); ("metadata", metadata)]) as [r|x].
  - destruct (cl_upload_records cl name [r] e) as [[u|x] e']; reflexivity.
  - simpl. now rewrite set_client_same.
Qed.

(** X2.  Once the existence check has answered, [insert_one] never raises:
    every exception of the record constructor or of the upload becomes
    [False].  It returns [True] exactly when the collection exists, the
    record could be built and the upload of that single record returned;
    the engine is then the one this upload left. *)
Theorem insert_one_true_iff_uploaded :
  forall (name text : string) (vector : list float) (metadata : pyval)
         (record_id : option PointId) (self : QdrantDBProvider Engine)
         (e : Engine) (existed : bool),
    client self = Some e ->
    cl_collection_exists cl name e = Return existed ->
    (exists b self',
        insert_one cl models_Record name text vector metadata record_id self
        = (Return b, self'))
    /\ (forall self',
           insert_one cl models_Record name text vector metadata record_id
                      self = (Return true, self')
           <-> existed = true
               /\ exists r u e',
                   models_Record [record_id] vector
                     [("text", PyStr text); ("metadata", metadata)]
                   = Return r
                   /\ cl_upload_records cl name [r] e = (Return u, e')
                   /\ self' = set_client self (Some e')).
Proof.
  intros name text vector metadata record_id self e existed Hc Hex.
  destruct existed.
  - rewrite (insert_one_present name text vector metadata record_id self e
                                Hc Hex).
    destruct (models_Record [record_id] vector
                [("text", PyStr text); ("metadata", metadata)]) as [r|x].
    + destruct (cl_upload_records cl name [r] e) as [[u|x] e'] eqn:Hup.
      * split; [now eexists; eexists|]. intros self'. split.
        -- intros H. inversion H; subst. split; [reflexivity|].
           now exists r, u, e'.
        -- intros [_ [r' [u' [e'' [Hr [Hup' ->]]]]]].
           inversion Hr; subst. rewrite Hup in Hup'. now inversion Hup'.
      * split; [now eexists; eexists|]. intros self'. split.
        -- intros H. discriminate.
        -- intros [_ [r' [u' [e'' [Hr [Hup' _]]]]]].
           inversion Hr; subst. rewrite Hup in Hup'. discriminate.
    + split; [now eexists; eexists|]. intros self'. split.
      * intros H. discriminate.
      * intros [_ [r' [u' [e'' [Hr _]]]]]. discriminate.
  - rewrite (insert_one_absent_collection name text vector metadata
               record_id self e Hc Hex).
    split; [now eexists; eexists|]. intros self'. split.
    + intros H. discriminate.
    + intros [H _]. discriminate.
Qed.

(** *** The configuration is never touched *)

Lemma keeps_config_ret :
  forall (A : Type) (a : A), keeps_config (Engine := Engine) (ret a).
Proof. intros A a self. split; reflexivity. Qed.

Lemma keeps_config_raise :
  forall (A : Type) (x : exn),
    keeps_config (Engine := Engine) (raise (A := A) x).
Proof. intros A x self. split; reflexivity. Qed.

Lemma keeps_config_lift :
  forall (A : Type) (o : outcome A), keeps_config (Engine := Engine) (lift o).
Proof. intros A o self. split; reflexivity. Qed.

Lemma keeps_config_bind :
  forall (A B : Type) (m : M Engine A) (k : A -> M Engine B),
    keeps_config m -> (forall a, keeps_config (k a)) ->
    keeps_config (bind m k).
Proof.
  intros A B m k Hm Hk self. unfold bind.
  specialize (Hm self). destruct (m self) as [[a|x] self1]; simpl in Hm.
  - destruct (Hk a self1) as [H1 H2]. destruct Hm as [H3 H4].
    split; congruence.
  - exact Hm.
Qed.

Lemma keeps_config_try_except :
  forall (A : Type) (m : M Engine A) (h : exn -> M Engine A),
    keeps_config m -> (forall x, keeps_config (h x)) ->
    keeps_config (try_except m h).
Proof.
  intros A m h Hm Hh self. unfold try_except.
  specialize (Hm self). destruct (m self) as [[a|x] self1]; simpl in Hm.
  - exact Hm.
  - destruct (Hh x self1) as [H1 H2]. destruct Hm as [H3 H4].
    split; congruence.
Qed.

Lemma keeps_config_client_read :
  forall (A : Type) (f : Engine -> outcome A), keeps_config (client_read f).
Proof.
  intros A f self. unfold client_read.
  destruct (client self); split; reflexivity.
Qed.

Lemma keeps_config_client_call :
  forall (A : Type) (f : Engine -> outcome A * Engine),
    keeps_config (client_call f).
Proof.
  intros A f self. unfold client_call.
  destruct (client self) as [e|]; [|split; reflexivity].
  destruct (f e); split; reflexivity.
Qed.

Lemma keeps_config_if :
  forall (A : Type) (b : bool) (m1 m2 : M Engine A),
    keeps_config m1 -> keeps_config m2 ->
    keeps_config (if b then m1 else m2).
Proof. intros A [|] m1 m2 H1 H2; assumption. Qed.

Lemma keeps_config_delete_collection :
  forall name : string, keeps_config (delete_collection cl name).
Proof.
  intros name. unfold delete_collection.
  apply keeps_config_bind; [apply keeps_config_client_read|].
  intros existed. apply keeps_config_if.
  - apply keeps_config_bind; [apply keeps_config_client_call|].
    intros r. apply keeps_config_ret.
  - apply keeps_config_ret.
Qed.

Lemma keeps_config_create_collection :
  forall (name : string) (size : Z) (do_reset : bool),
    keeps_config (create_collection cl name size do_reset).
Proof.
  intros name size do_reset. unfold create_collection.
  apply keeps_config_bind.
  - apply keeps_config_if; [|apply keeps_config_ret].
    apply keeps_config_bind; [apply keeps_config_delete_collection|].
    intros r. apply keeps_config_ret.
  - intros _. apply keeps_config_bind; [apply keeps_config_client_read|].
    intros existed. apply keeps_config_if; [|apply keeps_config_ret].
    intros self.
    apply (keeps_config_bind _ _
             (client_call
                (client_create_collection cl name size
                                          (distance_method self)))
             (fun _ => ret true)).
    + apply keeps_config_client_call.
    + intros r. apply keeps_config_ret.
Qed.

Lemma keeps_config_insert_many_loop :
  forall (name : string) (texts : list string) (dense : list (list float))
         (sparse : list SparseArg) (metadata : list pyval)
         (record_ids : list PointId) (batch_size : Z) (starts : list Z),
    keeps_config (insert_many_loop cl name texts dense sparse metadata
                                   record_ids batch_size starts).
Proof.
  intros name texts dense sparse metadata record_ids batch_size starts.
  induction starts as [|i rest IH]; simpl.
  - apply keeps_config_ret.
  - apply keeps_config_bind; [apply keeps_config_lift|].
    intros records. apply keeps_config_bind.
    + unfold upload_batch. apply keeps_config_try_except.
      * apply keeps_config_bind; [apply keeps_config_client_call|].
        intros u. apply keeps_config_ret.
      * intros x. apply keeps_config_ret.
    + intros uploaded. apply keeps_config_if; [exact IH|].
      apply keeps_config_ret.
Qed.

Lemma keeps_config_documents :
  forall r : response,
    keeps_config (Engine := Engine)
      (match r with
       | RespNone => ret None
       | RespOpaque => ret None
       | QueryResponse points =>
           if len points =? 0 then ret None
           else bind (lift (retrieved_documents points))
                     (fun docs => ret (Some docs))
       end).
Proof.
  intros [| |points]; try apply keeps_config_ret.
  apply keeps_config_if; [apply keeps_config_ret|].
  apply keeps_config_bind; [apply keeps_config_lift|].
  intros docs. apply keeps_config_ret.
Qed.

Lemma keeps_config_insert_one :
  forall name text vector metadata record_id,
    keeps_config (insert_one cl models_Record name text vector metadata
                             record_id).
Proof.
  intros name text vector metadata record_id. unfold insert_one.
  apply keeps_config_bind; [apply keeps_config_client_read|].
  intros existed. apply keeps_config_if; [apply keeps_config_ret|].
  apply keeps_config_try_except; [|intros x; apply keeps_config_ret].
  apply keeps_config_bind; [apply keeps_config_client_call|].
  intros u. apply keeps_config_ret.
Qed.

Lemma keeps_config_insert_many :
  forall name texts dense sparse metadata record_ids batch_size,
    keeps_config (insert_many cl name texts dense sparse metadata record_ids
                              batch_size).
Proof.
  intros name texts dense sparse metadata record_ids batch_size.
  unfold insert_many, insert_many_body.
  apply keeps_config_bind; [apply keeps_config_lift|].
  intros starts. apply keeps_config_insert_many_loop.
Qed.

Lemma keeps_config_search_by_vector :
  forall name vector limit,
    keeps_config (search_by_vector cl name vector limit).
Proof.
  intros name vector limit. unfold search_by_vector.
  apply keeps_config_bind; [apply keeps_config_client_read|].
  intros r. apply keeps_config_documents.
Qed.

Lemma keeps_config_search_hybrid :
  forall name dense_vector sparse_vector dense_limit sparse_limit limit,
    keeps_config (search_hybrid cl name dense_vector sparse_vector
                                dense_limit sparse_limit limit).
Proof.
  intros name dv sa dl sl limit. unfold search_hybrid.
  apply keeps_config_bind; [apply keeps_config_lift|].
  intros sparse. apply keeps_config_bind; [apply keeps_config_client_read|].
  intros [| |points]; try apply keeps_config_ret;
    try apply keeps_config_raise.
  apply (keeps_config_documents (QueryResponse points)).
Qed.

(** X3.  No method changes the configuration of the provider: after any
    call, returned or raised, [db_path] and [distance_method] are what
    [__init__] set.  In particular every collection the provider creates
    gets the distance chosen at construction. *)
Theorem methods_keep_config :
  keeps_config (connect cl)
  /\ keeps_config (disconnect (Engine := Engine))
  /\ (forall name, keeps_config (is_collection_existed cl name))
  /\ keeps_config (list_all_collections cl_get_collections)
  /\ (forall name,
         keeps_config (get_collection_info cl_get_collection name))
  /\ (forall name, keeps_config (delete_collection cl name))
  /\ (forall name size do_reset,
         keeps_config (create_collection cl name size do_reset))
  /\ (forall name text vector metadata record_id,
         keeps_config (insert_one cl models_Record name text vector
                                  metadata record_id))
  /\ (forall name texts dense sparse metadata record_ids batch_size,
         keeps_config (insert_many cl name texts dense sparse metadata
                                   record_ids batch_size))
  /\ (forall name vector limit,
         keeps_config (search_by_vector cl name vector limit))
  /\ (forall name dense_vector sparse_vector dense_limit sparse_limit limit,
         keeps_config (search_hybrid cl name dense_vector sparse_vector
                                     dense_limit sparse_limit limit)).
Proof.
  split; [intros self; split; reflexivity|].
  split; [intros self; split; reflexivity|].
  split; [intros name; apply keeps_config_client_read|].
  split; [apply keeps_config_client_read|].
  split; [intros name; apply keeps_config_client_read|].
  split; [exact keeps_config_delete_collection|].
  split; [exact keeps_config_create_collection|].
  split; [exact keeps_config_insert_one|].
  split; [exact keeps_config_insert_many|].
  split; [exact keeps_config_search_by_vector|].
  exact keeps_config_search_hybrid.
Qed.

(** *** Before [connect] and after [disconnect] *)

Lemma range3_first_start :
  forall n step : Z,
    0 < n -> 0 < step -> exists rest, range3 0 n step = Return (0 :: rest).
Proof.
  intros n step Hn Hs. rewrite range3_positive_step by lia.
  assert (Hq : 1 <= (n + step - 1) / step)
    by (apply Z.div_le_lower_bound; lia).
  destruct (Z.to_nat ((n + step - 1) / step)) as [|c] eqn:E; [lia|].
  simpl. now eexists.
Qed.

(** X4.  On a provider whose client is [None] (never connected, or
    disconnected) every method that reaches for the client raises
    [AttributeError] and changes nothing: the existence check, both
    listings, [delete_collection], [create_collection], [insert_one],
    [search_by_vector], and [search_hybrid] when [SparseVector] accepts
    its sparse vector.  When [SparseVector] refuses it, [search_hybrid]
    raises that exception instead, the sparse vector being built before
    the client is reached.  [insert_many] does not raise: its client
    access sits inside the [try], so with at least one text, a positive
    batch size and a first batch that can be built it returns [False]. *)
Theorem unconnected_provider_raises :
  forall self : QdrantDBProvider Engine,
    client self = None ->
    (forall name,
        is_collection_existed cl name self = (Raise AttributeError, self))
    /\ list_all_collections cl_get_collections self
       = (Raise AttributeError, self)
    /\ (forall name,
           get_collection_info cl_get_collection name self
           = (Raise AttributeError, self))
    /\ (forall name,
           delete_collection cl name self = (Raise AttributeError, self))
    /\ (forall name size do_reset,
           create_collection cl name size do_reset self
           = (Raise AttributeError, self))
    /\ (forall name text vector metadata record_id,
           insert_one cl models_Record name text vector metadata record_id
                      self
           = (Raise AttributeError, self))
    /\ (forall name vector limit,
           search_by_vector cl name vector limit self
           = (Raise AttributeError, self))
    /\ (forall name dense_vector sparse_vector sparse dense_limit
               sparse_limit limit,
           cl_SparseVector cl sparse_vector = Return sparse ->
           search_hybrid cl name dense_vector sparse_vector dense_limit
                         sparse_limit limit self
           = (Raise AttributeError, self))
    /\ (forall name dense_vector sparse_vector dense_limit sparse_limit
               limit x,
           cl_SparseVector cl sparse_vector = Raise x ->
           search_hybrid cl name dense_vector sparse_vector dense_limit
                         sparse_limit limit self
           = (Raise x, self))
    /\ (forall name texts dense sparse metadata record_ids batch_size recs,
           texts <> [] ->
           0 < batch_size ->
           batch_records cl texts dense sparse
                         (metadata_or_default texts metadata)
                         (record_ids_or_default texts record_ids)
                         batch_size 0
           = Return recs ->
           insert_many cl name texts dense sparse metadata record_ids
                       batch_size self
           = (Return false, self)).
Proof.
  intros self Hc.
  assert (Hex : forall name,
             is_collection_existed cl name self
             = (Raise AttributeError, self)).
  { intros name. unfold is_collection_existed, client_read.
    now rewrite Hc. }
  assert (Hdel : forall name,
             delete_collection cl name self = (Raise AttributeError, self)).
  { intros name. unfold delete_collection, bind. now rewrite Hex. }
  split; [exact Hex|].
  split; [unfold list_all_collections, client_read; now rewrite Hc|].
  split; [intros name; unfold get_collection_info, client_read;
          now rewrite Hc|].
  split; [exact Hdel|].
  split.
  { intros name size do_reset. unfold create_collection, bind.
    destruct do_reset.
    - now rewrite Hdel.
    - unfold ret. now rewrite Hex. }
  split.
  { intros name text vector metadata record_id.
    unfold insert_one, bind. now rewrite Hex. }
  split.
  { intros name vector limit.
    unfold search_by_vector, bind, client_read. now rewrite Hc. }
  split.
  { intros name dv sa sv dl sl limit Hsv.
    unfold search_hybrid, bind, lift, client_read. now rewrite Hsv, Hc. }
  split.
  { intros name dv sa dl sl limit x Hsv.
    unfold search_hybrid, bind, lift. now rewrite Hsv. }
  intros name texts dense sparse metadata record_ids batch_size recs
         Hne Hbs Hrecs.
  assert (Hn : 0 < len texts).
  { destruct texts; [contradiction|]. unfold len. simpl. lia. }
  destruct (range3_first_start _ _ Hn Hbs) as [rest Hstarts].
  rewrite (insert_many_unfold cl name _ _ _ _ _ _ _ self Hstarts).
  simpl. unfold bind, lift. rewrite Hrecs.
  unfold upload_batch, try_except, bind, client_call. now rewrite Hc.
Qed.

End RestFacts.

(* ================================================================== *)
(** ** More on [insert_many] *)

Section SliceFacts.

Context {A : Type}.

(** Position [x] of a slice is position [i + x] of the list. *)
Lemma index_slice :
  forall (l : list A) (i step x : Z),
    0 <= i -> 0 <= x < step ->
    index (slice l i (i + step)) x = index l (i + x).
Proof.
  intros l i step x Hi Hx. rewrite slice_nonneg by lia.
  rewrite <- (Z2Nat.id x) at 1 by lia.
  rewrite <- (Z2Nat.id (i + x)) by lia.
  rewrite !index_of_nat, nth_error_firstn.
  assert (Hlt : (Z.to_nat x <? Z.to_nat (i + step - i))%nat = true)
    by (apply Nat.ltb_lt; lia).
  rewrite Hlt, nth_error_skipn.
  replace (Z.to_nat (i + x)) with (Z.to_nat i + Z.to_nat x)%nat by lia.
  reflexivity.
Qed.

Lemma index_firstn :
  forall (l : list A) (n : nat) (k : Z),
    0 <= k < Z.of_nat n -> index (firstn n l) k = index l k.
Proof.
  intros l n k Hk. rewrite <- (Z2Nat.id k) by lia.
  rewrite !index_of_nat, nth_error_firstn.
  assert (Hlt : (Z.to_nat k <? n)%nat = true) by (apply Nat.ltb_lt; lia).
  now rewrite Hlt.
Qed.

End SliceFacts.

Lemma comprehension_ext_in :
  forall (A B : Type) (f g : A -> outcome B) (l : list A),
    (forall a, In a l -> f a = g a) ->
    comprehension f l = comprehension g l.
Proof.
  intros A B f g l. induction l as [|a l IH]; intros H; [reflexivity|].
  simpl. rewrite (H a (or_introl eq_refl)).
  rewrite IH; [reflexivity|]. intros b Hb. apply H. now right.
Qed.

Lemma Forall2_in_right :
  forall (A B : Type) (R : A -> B -> Prop) (l : list A) (l' : list B),
    Forall2 R l l' ->
    forall b, In b l' -> exists a, In a l /\ R a b.
Proof.
  intros A B R l l' H. induction H as [|a b l l' Hab Hrest IH];
    intros b0 Hin; [contradiction|].
  destruct Hin as [<-|Hin].
  - exists a. split; [now left|exact Hab].
  - destruct (IH b0 Hin) as [a' [Ha' HR]]. exists a'. split; [now right|].
    exact HR.
Qed.

Lemma range3_negative_step :
  forall n step : Z, 0 <= n -> step < 0 -> range3 0 n step = Return [].
Proof.
  intros n step Hn Hs. unfold range3, range_count.
  assert (H0 : (step =? 0) = false) by (apply Z.eqb_neq; lia).
  assert (H1 : (0 <? step) = false) by (apply Z.ltb_ge; lia).
  rewrite H0, H1.
  assert (Hq : (0 - n - step - 1) / - step < 1)
    by (apply Z.div_lt_upper_bound; lia).
  destruct ((0 - n - step - 1) / - step) eqn:E; try reflexivity. lia.
Qed.

Section MoreInsertManyFacts.

Context {Engine SparseArg SparseVec : Type}.
Variable cl : QdrantClient Engine SparseArg SparseVec.
Variable name : string.

(** X5.  A batch size that is not positive is not rejected.  With a
    negative one the loop has no batch at all, so [insert_many] returns
    [True] without uploading anything, whatever the texts; with 0, [range]
    raises [ValueError].  Either way the provider is left as it was. *)
Theorem insert_many_nonpositive_batch_size :
  forall (texts : list string) (dense : list (list float))
         (sparse : list SparseArg) (metadata : option (list pyval))
         (record_ids : option (list PointId)) (batch_size : Z)
         (self : QdrantDBProvider Engine),
    batch_size <= 0 ->
    insert_many cl name texts dense sparse metadata record_ids batch_size
                self
    = (if batch_size =? 0 then Raise ValueError else Return true, self).
Proof.
  intros texts dense sparse metadata record_ids batch_size self Hbs.
  unfold insert_many, insert_many_body, bind, lift.
  destruct (batch_size =? 0) eqn:E.
  - apply Z.eqb_eq in E. subst. reflexivity.
  - apply Z.eqb_neq in E.
    rewrite range3_negative_step by (try apply len_nonneg; lia).
    reflexivity.
Qed.

(** *** Inputs longer than [texts] *)

Lemma batch_records_cut_to_texts :
  forall (texts : list string) (dense : list (list float))
         (sparse : list SparseArg) (metadata : list pyval)
         (record_ids : list PointId) (batch_size i : Z),
    0 <= i -> 0 < batch_size ->
    batch_records cl texts
      (firstn (List.length texts) dense) (firstn (List.length texts) sparse)
      (firstn (List.length texts) metadata)
      (firstn (List.length texts) record_ids) batch_size i
    = batch_records cl texts dense sparse metadata record_ids batch_size i.
Proof.
  intros texts dense sparse metadata record_ids batch_size i Hi Hbs.
  unfold batch_records. apply comprehension_ext_in. intros x Hx.
  apply range1_In in Hx. rewrite slice_length in Hx by lia.
  assert (Hx1 : 0 <= x < batch_size) by lia.
  assert (Hx2 : 0 <= i + x < Z.of_nat (List.length texts))
    by (unfold len in Hx; lia).
  rewrite !index_slice by assumption.
  rewrite !index_firstn by assumption.
  reflexivity.
Qed.

Lemma insert_many_loop_cut_to_texts :
  forall (texts : list string) (dense : list (list float))
         (sparse : list SparseArg) (metadata : list pyval)
         (record_ids : list PointId) (batch_size : Z) (starts : list Z)
         (self : QdrantDBProvider Engine),
    0 < batch_size ->
    (forall i, In i starts -> 0 <= i) ->
    insert_many_loop cl name texts
      (firstn (List.length texts) dense) (firstn (List.length texts) sparse)
      (firstn (List.length texts) metadata)
      (firstn (List.length texts) record_ids) batch_size starts self
    = insert_many_loop cl name texts dense sparse metadata record_ids
                       batch_size starts self.
Proof.
  intros texts dense sparse metadata record_ids batch_size starts.
  induction starts as [|i rest IH]; intros self Hbs Hpos; [reflexivity|].
  simpl. unfold bind, lift.
  rewrite batch_records_cut_to_texts
    by (try apply Hpos; try (now left); assumption).
  destruct (batch_records cl texts dense sparse metadata record_ids
                          batch_size i) as [recs|x]; [|reflexivity].
  destruct (upload_batch cl name recs self) as [[[|]|x] self'];
    try reflexivity.
  apply IH; [assumption|]. intros j Hj. apply Hpos. now right.
Qed.

(** X6.  [insert_many] never reads its parallel inputs past [len(texts)]:
    entries of [dense_vectors], [sparse_vectors], [metadata] and
    [record_ids] beyond that position are ignored without any complaint,
    the call behaving exactly as on the inputs cut to [len(texts)]. *)
Theorem insert_many_ignores_surplus_entries :
  forall (texts : list string) (dense : list (list float))
         (sparse : list SparseArg) (metadata : option (list pyval))
         (record_ids : option (list PointId)) (batch_size : Z)
         (self : QdrantDBProvider Engine),
    insert_many cl name texts dense sparse metadata record_ids batch_size
                self
    = insert_many cl name texts
        (firstn (List.length texts) dense)
        (firstn (List.length texts) sparse)
        (option_map (firstn (List.length texts)) metadata)
        (option_map (firstn (List.length texts)) record_ids)
        batch_size self.
Proof.
  intros texts dense sparse metadata record_ids batch_size self.
  assert (Hmd : metadata_or_default texts
                  (option_map (firstn (List.length texts)) metadata)
                = firstn (List.length texts)
                         (metadata_or_default texts metadata)).
  { destruct metadata as [md|]; simpl; [reflexivity|].
    rewrite firstn_all2; [reflexivity|].
    unfold none_list, len. rewrite repeat_length. lia. }
  assert (Hids : record_ids_or_default texts
                   (option_map (firstn (List.length texts)) record_ids)
                 = firstn (List.length texts)
                          (record_ids_or_default texts record_ids)).
  { destruct record_ids as [ids|]; simpl; [reflexivity|].
    rewrite firstn_all2; [reflexivity|].
    rewrite length_map, range1_length. unfold len. lia. }
  unfold insert_many, insert_many_body, bind, lift.
  rewrite Hmd, Hids.
  destruct (Z_lt_le_dec 0 batch_size) as [Hbs|Hbs].
  - rewrite (range3_positive_step _ _ (len_nonneg texts) Hbs).
    symmetry. apply insert_many_loop_cut_to_texts; [exact Hbs|].
    intros i Hi. exact (batch_starts_nonneg _ _ i Hbs Hi).
  - destruct (range3 0 (len texts) batch_size) as [starts|x] eqn:E;
      [|reflexivity].
    destruct (Z.eq_dec batch_size 0) as [->|Hne]; [discriminate|].
    rewrite range3_negative_step in E by (try apply len_nonneg; lia).
    inversion E. reflexivity.
Qed.

(** *** What the uploaded batches hold *)

Section Batches.

Variable texts : list string.
Variable dense_vectors : list (list float).
Variable sparse_vectors : list SparseArg.
Variable metadata : list pyval.
Variable record_ids : list PointId.
Variable batch_size : Z.

Local Abbreviation records_at :=
  (batch_records cl texts dense_vectors sparse_vectors metadata record_ids
                 batch_size).

(** Record [k] of a built batch, field by field. *)
Lemma batch_records_fields :
  forall (i : Z) (recs : list (Record_ SparseVec)),
    records_at i = Return recs ->
    Forall2
      (fun k r =>
         exists id d sa sv t m,
           nth_error (slice record_ids i (i + batch_size)) k = Some id
           /\ nth_error (slice dense_vectors i (i + batch_size)) k = Some d
           /\ nth_error (slice sparse_vectors i (i + batch_size)) k = Some sa
           /\ cl_SparseVector cl sa = Return sv
           /\ nth_error (slice texts i (i + batch_size)) k = Some t
           /\ nth_error (slice metadata i (i + batch_size)) k = Some m
           /\ r = mkRecord id (mkNamedVectors d sv)
                           [("text", PyStr t); ("metadata", m)])
      (seq 0 (List.length (slice texts i (i + batch_size)))) recs.
Proof.
  intros i recs H. unfold batch_records in H.
  apply comprehension_Forall2 in H. unfold range1, len in H.
  rewrite Nat2Z.id in H. apply Forall2_map_left in H.
  revert H. apply Forall2_impl. intros k r Hbody.
  rewrite !index_of_nat in Hbody.
  destruct (nth_error (slice record_ids i (i + batch_size)) k)
    as [id|]; [simpl in Hbody|discriminate].
  destruct (nth_error (slice dense_vectors i (i + batch_size)) k)
    as [d|]; [simpl in Hbody|discriminate].
  destruct (nth_error (slice sparse_vectors i (i + batch_size)) k)
    as [sa|]; [simpl in Hbody|discriminate].
  destruct (cl_SparseVector cl sa) as [sv|] eqn:Hsv;
    [simpl in Hbody|discriminate].
  destruct (nth_error (slice texts i (i + batch_size)) k)
    as [t|]; [simpl in Hbody|discriminate].
  destruct (nth_error (slice metadata i (i + batch_size)) k)
    as [m|]; [simpl in Hbody|discriminate].
  inversion Hbody; subst. exists id, d, sa, sv, t, m. repeat split.
  exact Hsv.
Qed.

(** A field that record [k] takes from position [k] of an input as long as
    [texts] is, read over all batches, gives that input back. *)
Lemma batches_field :
  forall (C V : Type) (L : list C) (G : Record_ SparseVec -> V) (h : C -> V)
         (starts : list Z) (batches : list (list (Record_ SparseVec))),
    (forall i recs,
        records_at i = Return recs ->
        Forall2 (fun k r => exists v,
                     nth_error (slice L i (i + batch_size)) k = Some v
                     /\ G r = h v)
                (seq 0 (List.length (slice texts i (i + batch_size)))) recs) ->
    0 < batch_size ->
    len L = len texts ->
    range3 0 (len texts) batch_size = Return starts ->
    comprehension records_at starts = Return batches ->
    map G (List.concat batches) = map h L.
Proof.
  intros C V L G h starts batches Hfield Hbs Hlen Hstarts Hbuilt.
  pose proof (len_nonneg texts) as Hn.
  assert (Hs : map (fun k => Z.of_nat k * batch_size)
                   (seq 0 (Z.to_nat ((len texts + batch_size - 1)
                                     / batch_size)))
               = starts).
  { rewrite (range3_positive_step _ _ Hn Hbs) in Hstarts.
    now inversion Hstarts. }
  assert (Hpos : forall i, In i starts -> 0 <= i).
  { rewrite <- Hs. intros i Hi. exact (batch_starts_nonneg _ _ i Hbs Hi). }
  assert (Hmaps : map (map G) batches
                  = map (fun i => map h (slice L i (i + batch_size))) starts).
  { clear Hs Hstarts. revert batches Hbuilt Hpos.
    induction starts as [|i rest IH]; intros batches Hbuilt Hpos.
    - simpl in Hbuilt. inversion Hbuilt. reflexivity.
    - apply comprehension_cons_inv in Hbuilt.
      destruct Hbuilt as [b [bs [-> [Hb Hrest]]]].
      simpl. rewrite (IH bs Hrest (fun j Hj => Hpos j (or_intror Hj))).
      f_equal.
      assert (Hi : 0 <= i) by (apply Hpos; now left).
      rewrite <- (firstn_all (slice L i (i + batch_size))).
      replace (List.length (slice L i (i + batch_size)))
        with (List.length (slice texts i (i + batch_size))).
      + exact (positions_read _ _ _ (slice L i (i + batch_size)) G h _
                              0%nat b (Hfield i b Hb)).
      + pose proof (slice_length L i batch_size Hi Hbs) as H1.
        pose proof (slice_length texts i batch_size Hi Hbs) as H2.
        unfold len in *. lia. }
  rewrite concat_map, Hmaps, <- Hs.
  rewrite <- (map_map (fun i => slice L i (i + batch_size)) (map h)).
  rewrite <- concat_map. f_equal.
  apply slices_concat; [exact Hbs|].
  rewrite Hlen, Z2Nat.id; [exact (batch_count_covers _ _ Hn Hbs)|].
  apply Z.div_pos; lia.
Qed.

(** X7.  With a positive batch size the texts are cut into
    ceil(len(texts) / batch_size) batches, none of them empty and none
    longer than [batch_size], which together hold one record per text. *)
Theorem insert_many_batch_shape :
  forall (starts : list Z) (batches : list (list (Record_ SparseVec))),
    0 < batch_size ->
    range3 0 (len texts) batch_size = Return starts ->
    comprehension records_at starts = Return batches ->
    len batches = (len texts + batch_size - 1) / batch_size
    /\ Forall (fun b => 0 < len b <= batch_size) batches
    /\ len (List.concat batches) = len texts.
Proof.
  intros starts batches Hbs Hstarts Hbuilt.
  pose proof (len_nonneg texts) as Hn.
  assert (Hs : map (fun k => Z.of_nat k * batch_size)
                   (seq 0 (Z.to_nat ((len texts + batch_size - 1)
                                     / batch_size)))
               = starts).
  { pose proof Hstarts as Hr.
    rewrite (range3_positive_step _ _ Hn Hbs) in Hr. now inversion Hr. }
  assert (Hq : 0 <= (len texts + batch_size - 1) / batch_size)
    by (apply Z.div_pos; lia).
  pose proof (comprehension_Forall2 _ _ _ Hbuilt) as Hall.
  split; [|split].
  - unfold len at 1. rewrite <- (Forall2_length Hall), <- Hs.
    rewrite length_map, length_seq. lia.
  - assert (Hin : Forall (fun i => 0 <= i < len texts) starts).
    { rewrite <- Hs. apply Forall_forall. intros i Hi.
      apply in_map_iff in Hi. destruct Hi as [k [<- Hk]].
      apply in_seq in Hk.
      pose proof (Z.div_mod (len texts + batch_size - 1) batch_size
                            ltac:(lia)) as Hdm.
      pose proof (Z.mod_pos_bound (len texts + batch_size - 1)
                                  batch_size Hbs) as Hb.
      nia. }
    clear Hs Hstarts Hbuilt. induction Hall as [|i b starts' bs' Hb Hrest IH].
    + constructor.
    + inversion Hin as [|? ? Hi Hin']; subst.
      constructor; [|exact (IH Hin')].
      apply batch_records_positions in Hb.
      apply Forall2_length in Hb. rewrite length_seq in Hb.
      pose proof (slice_length texts i batch_size ltac:(lia) Hbs) as Hl.
      unfold len in *. lia.
  - assert (Htexts : map record_text (List.concat batches)
                     = map (fun t => Return (PyStr t)) texts).
    { apply (batches_field _ _ texts record_text
                           (fun t => Return (PyStr t)) starts batches);
        try assumption; try reflexivity.
      intros i recs Hrecs. apply batch_records_fields in Hrecs.
      revert Hrecs. apply Forall2_impl.
      intros k r [id [d [sa [sv [t [m [_ [_ [_ [_ [Ht [_ ->]]]]]]]]]]]].
      exists t. split; [exact Ht|reflexivity]. }
    apply (f_equal (@List.length _)) in Htexts.
    rewrite !length_map in Htexts. unfold len. lia.
Qed.

(** X8.  When [dense_vectors], [sparse_vectors] and [metadata] are as long
    as [texts] and the batch size is positive, the records built, taken
    batch after batch, carry the inputs unchanged and in input order:
    record [k] holds the [k]-th dense vector, the sparse vector that
    [SparseVector] built from the [k]-th sparse argument, and a payload
    that is exactly the two entries ["text"] and ["metadata"] with the
    [k]-th text and the [k]-th metadata. *)
Theorem insert_many_records_carry_inputs :
  forall (starts : list Z) (batches : list (list (Record_ SparseVec))),
    0 < batch_size ->
    len dense_vectors = len texts ->
    len sparse_vectors = len texts ->
    len metadata = len texts ->
    range3 0 (len texts) batch_size = Return starts ->
    comprehension records_at starts = Return batches ->
    map (fun r => nv_dense (r_vector r)) (List.concat batches)
    = dense_vectors
    /\ map (fun r => Return (nv_sparse (r_vector r))) (List.concat batches)
       = map (cl_SparseVector cl) sparse_vectors
    /\ map r_payload (List.concat batches)
       = map (fun tm => [("text", PyStr (fst tm)); ("metadata", snd tm)])
             (combine texts metadata).
Proof.
  intros starts batches Hbs Hdense Hsparse Hmeta Hstarts Hbuilt.
  split; [|split].
  - transitivity (map (fun d : list float => d) dense_vectors);
      [|apply map_id].
    apply (batches_field _ _ dense_vectors
                         (fun r => nv_dense (r_vector r)) (fun d => d)
                         starts batches); try assumption.
    intros i recs Hrecs. apply batch_records_fields in Hrecs.
    revert Hrecs. apply Forall2_impl.
    intros k r [id [d [sa [sv [t [m [_ [Hd [_ [_ [_ [_ ->]]]]]]]]]]]].
    exists d. split; [exact Hd|reflexivity].
  - apply (batches_field _ _ sparse_vectors
                         (fun r => Return (nv_sparse (r_vector r)))
                         (cl_SparseVector cl) starts batches);
      try assumption.
    intros i recs Hrecs. apply batch_records_fields in Hrecs.
    revert Hrecs. apply Forall2_impl.
    intros k r [id [d [sa [sv [t [m [_ [_ [Hsa [Hsv [_ [_ ->]]]]]]]]]]]].
    exists sa. split; [exact Hsa|]. simpl. now rewrite Hsv.
  - assert (Ht : map (fun r => dict_get (r_payload r) "text")
                     (List.concat batches)
                 = map (fun t => Return (PyStr t)) texts).
    { apply (batches_field _ _ texts
                           (fun r => dict_get (r_payload r) "text")
                           (fun t => Return (PyStr t)) starts batches);
        try assumption; try reflexivity.
      intros i recs Hrecs. apply batch_records_fields in Hrecs.
      revert Hrecs. apply Forall2_impl.
      intros k r [id [d [sa [sv [t [m [_ [_ [_ [_ [Ht [_ ->]]]]]]]]]]]].
      exists t. split; [exact Ht|reflexivity]. }
    assert (Hm : map (fun r => dict_get (r_payload r) "metadata")
                     (List.concat batches)
                 = map (fun m => Return m) metadata).
    { apply (batches_field _ _ metadata
                           (fun r => dict_get (r_payload r) "metadata")
                           (fun m => Return m) starts batches);
        try assumption.
      intros i recs Hrecs. apply batch_records_fields in Hrecs.
      revert Hrecs. apply Forall2_impl.
      intros k r [id [d [sa [sv [t [m [_ [_ [_ [_ [_ [Hm ->]]]]]]]]]]]].
      exists m. split; [exact Hm|reflexivity]. }
    assert (Hshape : Forall (fun r => exists t m,
                                 r_payload r
                                 = [("text", PyStr t); ("metadata", m)])
                            (List.concat batches)).
    { apply Forall_forall. intros r Hr. apply in_concat in Hr.
      destruct Hr as [b [Hb Hr]].
      pose proof (comprehension_Forall2 _ _ _ Hbuilt) as Hall.
      destruct (Forall2_in_right _ _ _ _ _ Hall b Hb) as [i [_ Hi]].
      apply batch_records_fields in Hi.
      destruct (Forall2_in_right _ _ _ _ _ Hi r Hr)
        as [k [_ [id [d [sa [sv [t [m [_ [_ [_ [_ [_ [_ ->]]]]]]]]]]]]]].
      now exists t, m. }
    clear Hbuilt Hstarts Hdense Hsparse.
    revert texts metadata Hmeta Ht Hm Hshape.
    induction (List.concat batches) as [|r rs IH];
      intros texts0 metadata0 Hmeta Ht Hm Hshape.
    + destruct texts0; [reflexivity|discriminate].
    + destruct texts0 as [|t ts]; [discriminate|].
      destruct metadata0 as [|m ms]; [discriminate|].
      inversion Hshape as [|? ? [t' [m' Hpay]] Hrest]; subst.
      simpl in Ht, Hm. rewrite Hpay in Ht, Hm. simpl in Ht, Hm.
      inversion Ht as [[Ht1 Ht2]]. inversion Hm as [[Hm1 Hm2]]. subst.
      simpl. rewrite Hpay. f_equal.
      apply IH; try assumption.
      unfold len in *. simpl in Hmeta. lia.
Qed.

End Batches.

(** *** When the call reports success *)

Lemma upload_batches_returns :
  forall (batches : list (list (Record_ SparseVec)))
         (self : QdrantDBProvider Engine),
    exists b self', upload_batches cl name batches self = (Return b, self').
Proof.
  induction batches as [|b rest IH]; intros self; simpl.
  - now eexists; eexists.
  - unfold bind.
    destruct (upload_batch_returns cl name b self) as [r [self1 Hr]].
    rewrite Hr. destruct r; [apply IH|now eexists; eexists].
Qed.

Lemma upload_batches_true_iff :
  forall (batches : list (list (Record_ SparseVec)))
         (self self' : QdrantDBProvider Engine) (e : Engine),
    client self = Some e ->
    (upload_batches cl name batches self = (Return true, self')
     <-> exists e', uploads_ok cl name batches e e'
                    /\ self' = set_client self (Some e')).
Proof.
  induction batches as [|b rest IH]; intros self self' e Hc; simpl.
  - split.
    + intros H. inversion H; subst. exists e. split; [constructor|].
      symmetry. now apply set_client_same.
    + intros [e' [Hup ->]]. inversion Hup; subst.
      unfold ret. now rewrite set_client_same.
  - unfold bind.
    destruct (cl_upload_records cl name b e) as [[u|x] e1] eqn:Hup.
    + rewrite (upload_batch_ok cl name b self e e1 u Hc Hup).
      rewrite (IH (set_client self (Some e1)) self' e1 eq_refl).
      split.
      * intros [e' [Hrest ->]]. exists e'. split; [|reflexivity].
        now apply uploads_cons with (e1 := e1) (u := u).
      * intros [e' [Hall ->]].
        inversion Hall as [|? ? ? e1' ? u' Hfirst Hrest]; subst.
        rewrite Hup in Hfirst. inversion Hfirst; subst.
        exists e'. split; [exact Hrest|reflexivity].
    + rewrite (upload_batch_raises cl name b self e e1 x Hc Hup).
      split.
      * intros H. discriminate.
      * intros [e' [Hall _]].
        inversion Hall as [|? ? ? e1' ? u' Hfirst Hrest]; subst.
        rewrite Hup in Hfirst. discriminate.
Qed.

(** X9.  On a connected provider, when the records of every batch can be
    built, [insert_many] never raises, whatever the client does during the
    uploads; and it returns [True] exactly when every batch was uploaded,
    one after the other, without an exception, the engine being then the
    one the last upload left. *)
Theorem insert_many_true_iff_all_uploaded :
  forall (texts : list string) (dense : list (list float))
         (sparse : list SparseArg) (metadata : option (list pyval))
         (record_ids : option (list PointId)) (batch_size : Z)
         (starts : list Z) (batches : list (list (Record_ SparseVec)))
         (self : QdrantDBProvider Engine) (e : Engine),
    client self = Some e ->
    range3 0 (len texts) batch_size = Return starts ->
    comprehension
      (batch_records cl texts dense sparse
                     (metadata_or_default texts metadata)
                     (record_ids_or_default texts record_ids) batch_size)
      starts
    = Return batches ->
    (exists b self',
        insert_many cl name texts dense sparse metadata record_ids
                    batch_size self = (Return b, self'))
    /\ (forall self',
           insert_many cl name texts dense sparse metadata record_ids
                       batch_size self = (Return true, self')
           <-> exists e', uploads_ok cl name batches e e'
                          /\ self' = set_client self (Some e')).
Proof.
  intros texts dense sparse metadata record_ids batch_size starts batches
         self e Hc Hstarts Hbuilt.
  rewrite (insert_many_unfold cl name _ _ _ _ _ _ starts self Hstarts).
  rewrite (loop_is_upload_batches cl name _ _ _ _ _ _ starts batches self
                                  Hbuilt).
  split.
  - apply upload_batches_returns.
  - intros self'. now apply upload_batches_true_iff.
Qed.

(** *** A batch that cannot be built *)

(** When the batch holding position [m] cannot be built, the call never
    returns [True], and it raises once the batches before are through. *)
Lemma insert_many_unbuilt_batch :
  forall (texts : list string) (dense : list (list float))
         (sparse : list SparseArg) (metadata : option (list pyval))
         (record_ids : option (list PointId)) (batch_size m : Z)
         (starts : list Z) (self : QdrantDBProvider Engine),
    0 < batch_size ->
    0 <= m < len texts ->
    range3 0 (len texts) batch_size = Return starts ->
    (exists x,
        batch_records cl texts dense sparse
                      (metadata_or_default texts metadata)
                      (record_ids_or_default texts record_ids) batch_size
                      (Z.of_nat (Z.to_nat (m / batch_size)) * batch_size)
        = Raise x) ->
    fst (insert_many cl name texts dense sparse metadata record_ids
                     batch_size self) <> Return true
    /\ (forall (e e1 : Engine) (done : list (list (Record_ SparseVec))),
           client self = Some e ->
           comprehension
             (batch_records cl texts dense sparse
                            (metadata_or_default texts metadata)
                            (record_ids_or_default texts record_ids)
                            batch_size)
             (firstn (Z.to_nat (m / batch_size)) starts)
           = Return done ->
           uploads_ok cl name done e e1 ->
           exists x,
             insert_many cl name texts dense sparse metadata record_ids
                         batch_size self
             = (Raise x, set_client self (Some e1))).
Proof.
  intros texts dense sparse metadata record_ids batch_size m starts self
         Hbs Hm Hstarts [x Hx].
  pose proof (len_nonneg texts) as Hn.
  set (j := Z.to_nat (m / batch_size)) in *.
  set (c := Z.to_nat ((len texts + batch_size - 1) / batch_size)).
  assert (Hs : map (fun k => Z.of_nat k * batch_size) (seq 0 c) = starts).
  { pose proof Hstarts as Hrange.
    rewrite (range3_positive_step _ _ Hn Hbs) in Hrange.
    now inversion Hrange. }
  assert (Hq : 0 <= m / batch_size) by (apply Z.div_pos; lia).
  assert (Hjc : (j < c)%nat).
  { unfold j, c.
    replace (len texts + batch_size - 1)
      with (len texts - 1 + 1 * batch_size) by lia.
    rewrite Z.div_add by lia.
    assert (m / batch_size <= (len texts - 1) / batch_size)
      by (apply Z.div_le_mono; lia).
    lia. }
  assert (Hbad : nth_error starts j = Some (Z.of_nat j * batch_size)).
  { rewrite <- Hs.
    rewrite (nth_error_map (fun k => Z.of_nat k * batch_size) j (seq 0 c)).
    rewrite nth_error_seq.
    apply Nat.ltb_lt in Hjc. rewrite Hjc. reflexivity. }
  rewrite (insert_many_unfold cl name _ _ _ _ _ _ starts self Hstarts).
  split.
  - apply loop_never_true_past_unbuilt_batch
      with (i := Z.of_nat j * batch_size).
    + exact (nth_error_In _ _ Hbad).
    + now exists x.
  - intros e e1 done Hc Hbuilt Hdone. exists x.
    rewrite <- (firstn_skipn j starts).
    rewrite (loop_skips_good_prefix cl name _ _ _ _ _ _ _ _ done self e e1
                                    Hc Hbuilt Hdone).
    rewrite (nth_error_skipn_cons _ starts j _ Hbad).
    apply loop_raises_at_unbuilt_batch. exact Hx.
Qed.

(** X10.  A sparse argument that [SparseVector] refuses is not turned into
    [False]: the records are built outside the [try], so the exception
    leaves [insert_many].  With a positive batch size and a refused
    argument at position [k] of [sparse_vectors], below [len(texts)], the
    call never returns [True]; and once the batches before the one holding
    position [k] are built and uploaded, they stay uploaded and the call
    raises. *)
Theorem insert_many_refused_sparse_vector_raises :
  forall (texts : list string) (dense : list (list float))
         (sparse : list SparseArg) (metadata : option (list pyval))
         (record_ids : option (list PointId)) (batch_size k : Z)
         (sparse_arg : SparseArg) (x : exn)
         (starts : list Z) (self : QdrantDBProvider Engine),
    0 < batch_size ->
    0 <= k < len texts ->
    index sparse k = Return sparse_arg ->
    cl_SparseVector cl sparse_arg = Raise x ->
    range3 0 (len texts) batch_size = Return starts ->
    fst (insert_many cl name texts dense sparse metadata record_ids
                     batch_size self) <> Return true
    /\ (forall (e e1 : Engine) (done : list (list (Record_ SparseVec))),
           client self = Some e ->
           comprehension
             (batch_records cl texts dense sparse
                            (metadata_or_default texts metadata)
                            (record_ids_or_default texts record_ids)
                            batch_size)
             (firstn (Z.to_nat (k / batch_size)) starts)
           = Return done ->
           uploads_ok cl name done e e1 ->
           exists x',
             insert_many cl name texts dense sparse metadata record_ids
                         batch_size self
             = (Raise x', set_client self (Some e1))).
Proof.
  intros texts dense sparse metadata record_ids batch_size k sparse_arg x
         starts self Hbs Hk Hsa Hraise Hstarts.
  apply insert_many_unbuilt_batch; try assumption.
  assert (Hq : 0 <= k / batch_size) by (apply Z.div_pos; lia).
  rewrite Z2Nat.id by exact Hq.
  set (i := k / batch_size * batch_size).
  assert (Hwindow : 0 <= i /\ 0 <= k - i < batch_size).
  { unfold i. pose proof (Z.div_mod k batch_size ltac:(lia)).
    pose proof (Z.mod_pos_bound k batch_size Hbs). nia. }
  destruct Hwindow as [Hi Hwindow].
  unfold batch_records.
  apply comprehension_raises with (a := k - i).
  - apply range1_In. rewrite slice_length by lia. lia.
  - destruct (index (slice (record_ids_or_default texts record_ids) i
                           (i + batch_size)) (k - i))
      as [id|x1]; [simpl|now exists x1].
    destruct (index (slice dense i (i + batch_size)) (k - i))
      as [d|x2]; [simpl|now exists x2].
    rewrite (index_slice sparse i batch_size (k - i) Hi Hwindow).
    replace (i + (k - i)) with k by lia.
    rewrite Hsa. simpl. rewrite Hraise. now exists x.
Qed.

End MoreInsertManyFacts.

(* ================================================================== *)
(** ** More on collections and searches *)



Section MoreCollectionFacts.

Context {Engine SparseArg SparseVec : Type}.
Variable cl : QdrantClient Engine SparseArg SparseVec.
Variables COSINE_value DOT_value : string.

(** X11.  [do_reset=True] on a collection the client reports absent
    deletes nothing: [delete_collection] stops at its existence check, and
    the call goes on exactly as [create_collection] with
    [do_reset=False], its outcome being that of the creation (the
    [VectorParams] the provider builds, then the client's
    [create_collection]). *)
Theorem create_collection_reset_of_absent :
  forall (name : string) (size : Z) (self : QdrantDBProvider Engine)
         (e : Engine),
    client self = Some e ->
    cl_collection_exists cl name e = Return false ->
    create_collection cl name size true self
    = create_collection cl name size false self
    /\ create_collection cl name size true self
       = (obind (fst (client_create_collection cl name size
                                               (distance_method self) e))
                (fun _ => Return true),
          set_client self
            (Some (snd (client_create_collection cl name size
                                                 (distance_method self)
                                                 e)))).
Proof.
  intros name size self e Hc Habs.
  assert (Hreset : create_collection cl name size true self
                   = create_collection cl name size false self).
  { unfold create_collection, bind.
    rewrite (delete_collection_connected cl name self e false Hc Habs).
    reflexivity. }
  split; [exact Hreset|]. rewrite Hreset.
  unfold create_collection, bind, ret.
  rewrite (is_collection_existed_connected cl name self e Hc), Habs.
  simpl. unfold client_call. rewrite Hc.
  destruct (client_create_collection cl name size (distance_method self) e)
    as [[r|x] e']; reflexivity.
Qed.

(** X12.  A provider built with the cosine value, or with the dot value
    when the two values differ, keeps the matching distance through
    [connect] and hands it to the client when it creates an absent
    collection. *)
Theorem init_known_distance_reaches_client :
  forall (path method : string) (d : Distance),
    (method = COSINE_value /\ d = COSINE)
    \/ (method <> COSINE_value /\ method = DOT_value /\ d = DOT) ->
    let connected :=
      snd (connect cl (init COSINE_value DOT_value path method)) in
    init COSINE_value DOT_value path method
    = mkProvider (None : option Engine) path (Some d)
    /\ (forall (name : string) (size : Z),
           cl_collection_exists cl name (cl_open cl path) = Return false ->
           create_collection cl name size false connected
           = (obind (fst (cl_create_collection cl name
                            [("dense", mkVectorParams size d)]
                            sparse_config (cl_open cl path)))
                    (fun _ => Return true),
              set_client connected
                (Some (snd (cl_create_collection cl name
                              [("dense", mkVectorParams size d)]
                              sparse_config (cl_open cl path)))))).
Proof.
  intros path method d Hmethod connected.
  assert (Hself : init COSINE_value DOT_value path method
                  = mkProvider (None : option Engine) path (Some d)).
  { unfold init. destruct Hmethod as [[-> ->]|[Hcos [-> ->]]].
    - now rewrite String.eqb_refl.
    - apply String.eqb_neq in Hcos. now rewrite Hcos, String.eqb_refl. }
  split; [exact Hself|].
  unfold connected. rewrite Hself. simpl.
  intros name size Habs.
  unfold create_collection, bind, ret, is_collection_existed, client_read.
  simpl. rewrite Habs. simpl.
  unfold client_call, client_create_collection. simpl.
  destruct (cl_create_collection cl name [("dense", mkVectorParams size d)]
              sparse_config (cl_open cl path)) as [[r|x] e'];
    reflexivity.
Qed.


End MoreCollectionFacts.

(* ================================================================== *)
(** ** The further statements at concrete inputs *)

Module MoreRuns.

Import InMemory InMemoryRest Scenario ScenarioRest.

Lemma insert_one_absent_collection_witness :
  insert_one local_client single_record "docs" "t0" query_vector PyNone
             (Some (IdInt 7)) fresh
  = (Return false, fresh).
Proof.
  apply insert_one_absent_collection with (e := empty); reflexivity.
Defined.

Lemma insert_one_true_iff_uploaded_witness :
  insert_one local_client single_record "docs" "t0" query_vector PyNone
             (Some (IdInt 7)) with_docs
  = (Return true, set_client with_docs (Some after_single)).
Proof.
  apply (proj2 (insert_one_true_iff_uploaded
                  local_client single_record "docs" "t0" query_vector
                  PyNone (Some (IdInt 7)) with_docs docs_store true
                  eq_refl eq_refl)).
  split; [reflexivity|].
  exists (single "t0" (IdInt 7) query_vector), tt, after_single.
  repeat split.
Defined.

Lemma unconnected_provider_raises_witness :
  create_collection local_client "docs" 2 true unconnected
  = (Raise AttributeError, unconnected)
  /\ insert_one local_client single_record "docs" "t0" query_vector PyNone
                (Some (IdInt 7)) unconnected
     = (Raise AttributeError, unconnected)
  /\ search_hybrid local_client "docs" query_vector sv 3 3 4 unconnected
     = (Raise AttributeError, unconnected)
  /\ search_hybrid local_client "docs" query_vector None 3 3 4 unconnected
     = (Raise TypeError, unconnected)
  /\ insert_many local_client "docs" texts3 dense3 sparse3 None None 2
                 unconnected
     = (Return false, unconnected).
Proof.
  destruct (unconnected_provider_raises
              local_client single_record get_collections get_collection
              unconnected eq_refl)
    as [_ [_ [_ [_ [Hcreate [Hone [_ [Hhybrid [Hrefused Hmany]]]]]]]]].
  split; [apply Hcreate|]. split; [apply Hone|].
  split; [apply Hhybrid with (sparse := mkSparseVector [1; 5] [1 # 2; 1 # 4]);
          reflexivity|].
  split; [apply Hrefused; reflexivity|].
  apply Hmany with (recs := batch0).
  - discriminate.
  - reflexivity.
  - reflexivity.
Defined.

Lemma insert_many_nonpositive_batch_size_witness :
  insert_many local_client "docs" texts3 dense3 sparse3 None None (-5)
              with_docs
  = (Return true, with_docs).
Proof.
  apply (insert_many_nonpositive_batch_size
           local_client "docs" texts3 dense3 sparse3 None None (-5)
           with_docs).
  discriminate.
Defined.

Lemma insert_many_batch_shape_witness :
  len batches3 = 2
  /\ Forall (fun b => 0 < len b <= 2) batches3
  /\ len (List.concat batches3) = 3.
Proof.
  apply (insert_many_batch_shape
           local_client texts3 dense3 sparse3
           (metadata_or_default texts3 None)
           (record_ids_or_default texts3 None) 2 [0; 2] batches3);
    reflexivity.
Defined.

Lemma insert_many_records_carry_inputs_witness :
  map (fun r => nv_dense (r_vector r)) (List.concat batches3) = dense3
  /\ map (fun r => Return (nv_sparse (r_vector r))) (List.concat batches3)
     = map make_sparse sparse3
  /\ map r_payload (List.concat batches3)
     = [payload_of "t0"; payload_of "t1"; payload_of "t2"].
Proof.
  apply (insert_many_records_carry_inputs
           local_client texts3 dense3 sparse3
           (metadata_or_default texts3 None)
           (record_ids_or_default texts3 None) 2 [0; 2] batches3);
    reflexivity.
Defined.

Lemma insert_many_true_iff_all_uploaded_witness :
  insert_many local_client "docs" texts3 dense3 sparse3 None None 2
              with_docs
  = (Return true, set_client with_docs (Some after_batches3)).
Proof.
  apply (proj2 (insert_many_true_iff_all_uploaded
                  local_client "docs" texts3 dense3 sparse3 None None 2
                  [0; 2] batches3 with_docs docs_store
                  eq_refl eq_refl eq_refl)).
  exists after_batches3. split; [|reflexivity].
  apply uploads_cons with (e1 := after_batch0) (u := tt); [reflexivity|].
  apply uploads_cons with (e1 := after_batches3) (u := tt); [reflexivity|].
  apply uploads_nil.
Defined.

Lemma insert_many_refused_sparse_vector_raises_witness :
  exists x,
    insert_many local_client "docs" texts3 dense3 sparse3_bad None None 2
                with_docs
    = (Raise x, set_client with_docs (Some after_batch0)).
Proof.
  assert (Hk : 0 <= 2 < len texts3) by (split; [discriminate|reflexivity]).
  apply (proj2 (insert_many_refused_sparse_vector_raises
                  local_client "docs" texts3 dense3 sparse3_bad None None
                  2 2 None TypeError [0; 2] with_docs
                  eq_refl Hk eq_refl eq_refl eq_refl)
               docs_store after_batch0 [batch0] eq_refl eq_refl).
  apply uploads_cons with (e1 := after_batch0) (u := tt); [reflexivity|].
  apply uploads_nil.
Defined.

Lemma create_collection_reset_of_absent_witness :
  create_collection local_client "docs" 2 true fresh
  = create_collection local_client "docs" 2 false fresh
  /\ create_collection local_client "docs" 2 true fresh
     = (Return true, with_docs).
Proof.
  apply (create_collection_reset_of_absent
           local_client "docs" 2 fresh empty eq_refl eq_refl).
Defined.

Lemma init_known_distance_reaches_client_witness :
  init "cosine" "dot" "db" "dot"
  = mkProvider (None : option store) "db" (Some DOT)
  /\ create_collection local_client "docs" 2 false
       (snd (connect local_client (init "cosine" "dot" "db" "dot")))
     = (Return true, mkProvider (Some docs_store) "db" (Some DOT)).
Proof.
  assert (Hmethod : ("dot" = "cosine" /\ DOT = COSINE)
                    \/ ("dot" <> "cosine" /\ "dot" = "dot" /\ DOT = DOT)).
  { right. split; [discriminate|split; reflexivity]. }
  destruct (init_known_distance_reaches_client
              local_client "cosine" "dot" "db" "dot" DOT Hmethod)
    as [Hinit Hcreate].
  split; [exact Hinit|]. exact (Hcreate "docs" 2 eq_refl).
Defined.


End MoreRuns.
